(** * FigureLab: the editing core, embedded and verified

    A shallow embedding of the scene model of the FigureLab diagram editor:
    the undo/redo history hook ([hooks/useHistory.ts]), the SVG export
    sanitizers ([utils/svgExport.ts]) and the grouping, layout, routing,
    export and project-loading handlers of [App.tsx].

    Conventions.
    - A JavaScript [number] is a rational [Q]; arithmetic is exact, and the
      non-finite values ([NaN], [Infinity]) have no counterpart: where the
      code would build one, the model says so and stops.
    - An optional property ([width?: number]) is an [option]; [undefined]
      is [None].
    - A React state cell is a field of an explicit state record, and a
      handler is a function from the state it is called in to the state
      it leaves, or to an outcome when it can throw.
    - What a handler hands to the history is kept as the history keeps
      it: a canvas value, or the updater closure itself, by name. *)

From Stdlib Require Import List Arith Lia Bool.
From Stdlib Require Import QArith Qabs Qminmax.
From Stdlib Require Import Ascii String DecimalString.
Import ListNotations.
Close Scope Q_scope.

(** ** Array helpers shared by the modules below *)

(** [Array.prototype.pop]: the array without its last entry, and that entry. *)
Fixpoint pop {A : Type} (l : list A) : option (list A * A) :=
  match l with
  | [] => None
  | a :: l' =>
      match pop l' with
      | None => Some ([], a)
      | Some (r, z) => Some (a :: r, z)
      end
  end.

(** [Array.prototype.findIndex], with [None] for [-1]. *)
Fixpoint findIndex {A : Type} (p : A -> bool) (l : list A) : option nat :=
  match l with
  | [] => None
  | a :: l' => if p a then Some 0%nat else option_map S (findIndex p l')
  end.

(** [Array.prototype.includes] on an array of strings. *)
Definition includes (l : list string) (s : string) : bool :=
  existsb (String.eqb s) l.

Lemma pop_snoc {A : Type} (l : list A) (z : A) : pop (l ++ [z]) = Some (l, z).
Proof.
  induction l as [|a l IH]; simpl; [reflexivity|].
  now rewrite IH.
Qed.

Lemma pop_length {A : Type} (l r : list A) (z : A) :
  pop l = Some (r, z) -> l = r ++ [z].
Proof.
  revert r z; induction l as [|a l IH]; intros r z; simpl; [discriminate|].
  destruct (pop l) as [[r' z']|] eqn:E.
  - intros [= <- <-]. now rewrite (IH _ _ eq_refl).
  - intros [= <- <-]. destruct l as [|b l]; [reflexivity|].
    simpl in E. destruct (pop l) as [[? ?]|]; discriminate.
Qed.

Lemma pop_none {A : Type} (l : list A) : pop l = None -> l = [].
Proof.
  destruct l as [|a l]; [reflexivity|]; simpl.
  destruct (pop l) as [[? ?]|]; discriminate.
Qed.

Lemma last_cons_default {A : Type} (l : list A) :
  forall a d d', last (a :: l) d = last (a :: l) d'.
Proof.
  induction l as [|b l IH]; intros a d d'; [reflexivity|].
  change (last (b :: l) d = last (b :: l) d'). apply IH.
Qed.

Lemma includes_In (l : list string) (s : string) :
  includes l s = true <-> In s l.
Proof.
  unfold includes. rewrite existsb_exists. split.
  - intros (t & Ht & E). apply String.eqb_eq in E. now subst.
  - intros H. exists s. split; [assumption|apply String.eqb_refl].
Qed.

(** ** History manager ([useHistory]) *)

Module History.

Record HistoryState (T : Type) : Type := mkHistory
  { past : list T; present : T; future : list T }.
Arguments mkHistory {T}.
Arguments past {T}.
Arguments present {T}.
Arguments future {T}.

Definition MAX_HISTORY_LENGTH : nat := 100.

Section Hook.
Context {T : Type}.

(** [useState] initialiser of the hook; also what [reset] installs. *)
Definition reset (initialState : T) : HistoryState T :=
  mkHistory [] initialState [].

Definition setState (current : HistoryState T) (newState : T)
    (skipHistory : bool) : HistoryState T :=
  if skipHistory then
    mkHistory (past current) newState (future current)
  else
    let newPast := past current ++ [present current] in
    let newPast :=
      if (MAX_HISTORY_LENGTH <? List.length newPast)%nat then tl newPast
      else newPast in
    mkHistory newPast newState [].

Definition undo (current : HistoryState T) : HistoryState T :=
  match pop (past current) with
  | None => current
  | Some (newPast, newPresent) =>
      mkHistory newPast newPresent (present current :: future current)
  end.

Definition redo (current : HistoryState T) : HistoryState T :=
  match future current with
  | [] => current
  | newPresent :: newFuture =>
      mkHistory (past current ++ [present current]) newPresent newFuture
  end.

Definition clearHistory (current : HistoryState T) : HistoryState T :=
  mkHistory [] (present current) [].

Definition canUndo (h : HistoryState T) : bool :=
  (0 <? List.length (past h))%nat.
Definition canRedo (h : HistoryState T) : bool :=
  (0 <? List.length (future h))%nat.

(** A run of [setState] calls that all record history. *)
Definition setStates (h : HistoryState T) (xs : list T) : HistoryState T :=
  fold_left (fun cur x => setState cur x false) xs h.

(** *** Lemmas *)

Lemma redo_undo (h : HistoryState T) :
  past h <> [] -> redo (undo h) = h.
Proof.
  intros Hne. unfold undo.
  destruct (pop (past h)) as [[r z]|] eqn:E.
  - apply pop_length in E. unfold redo; simpl.
    destruct h as [p c f]; simpl in *. now subst.
  - apply pop_none in E. contradiction.
Qed.

Lemma undo_past_length (h : HistoryState T) :
  List.length (past (undo h)) = Nat.pred (List.length (past h)).
Proof.
  unfold undo. destruct (pop (past h)) as [[r z]|] eqn:E.
  - apply pop_length in E. rewrite E; simpl.
    rewrite length_app; simpl. lia.
  - apply pop_none in E. now rewrite E.
Qed.

Lemma undo_redo_iter (k : nat) :
  forall h : HistoryState T,
    (k <= List.length (past h))%nat ->
    Nat.iter k redo (Nat.iter k undo h) = h.
Proof.
  induction k as [|k IH]; intros h Hk; [reflexivity|].
  rewrite (Nat.iter_succ_r k _ undo), (Nat.iter_succ k _ redo).
  rewrite IH.
  - apply redo_undo. intros E. rewrite E in Hk. simpl in Hk. lia.
  - rewrite undo_past_length. lia.
Qed.

(** The whole line of states a history holds, oldest first; [undo] and
    [redo] move along it without changing it. *)
Definition timeline (h : HistoryState T) : list T :=
  past h ++ present h :: future h.

Lemma present_nth (h : HistoryState T) :
  nth_error (timeline h) (List.length (past h)) = Some (present h).
Proof.
  unfold timeline. rewrite nth_error_app2 by lia.
  now rewrite Nat.sub_diag.
Qed.

Lemma undo_timeline (h : HistoryState T) : timeline (undo h) = timeline h.
Proof.
  unfold undo, timeline.
  destruct (pop (past h)) as [[r z]|] eqn:E; [|reflexivity].
  apply pop_length in E. rewrite E; simpl. now rewrite <- app_assoc.
Qed.

Lemma undo_iter_timeline (k : nat) (h : HistoryState T) :
  timeline (Nat.iter k undo h) = timeline h.
Proof.
  induction k as [|k IH]; simpl; [reflexivity|].
  now rewrite undo_timeline.
Qed.

Lemma undo_iter_past_length (k : nat) (h : HistoryState T) :
  List.length (past (Nat.iter k undo h)) = (List.length (past h) - k)%nat.
Proof.
  induction k as [|k IH]; simpl; [lia|].
  rewrite undo_past_length, IH. lia.
Qed.

Lemma setStates_cons (h : HistoryState T) (x : T) (xs : list T) :
  setStates h (x :: xs) = setStates (setState h x false) xs.
Proof. reflexivity. Qed.

Lemma setState_past_length (h : HistoryState T) (x : T) :
  (List.length (past h) < MAX_HISTORY_LENGTH)%nat ->
  past (setState h x false) = past h ++ [present h].
Proof.
  intros Hlt. unfold setState; simpl.
  destruct (Nat.ltb_spec MAX_HISTORY_LENGTH
              (List.length (past h ++ [present h]))) as [H|H]; [|reflexivity].
  rewrite length_app in H; simpl in H. lia.
Qed.

Lemma setStates_past_length (xs : list T) :
  forall h : HistoryState T,
    (List.length (past h) + List.length xs <= MAX_HISTORY_LENGTH)%nat ->
    List.length (past (setStates h xs)) = (List.length (past h) + List.length xs)%nat.
Proof.
  induction xs as [|x xs IH]; intros h Hb; [simpl; lia|].
  rewrite setStates_cons.
  change (List.length (x :: xs)) with (S (List.length xs)) in *.
  rewrite IH; rewrite setState_past_length by lia;
    rewrite length_app; simpl; lia.
Qed.

Lemma setStates_timeline (xs : list T) :
  forall h : HistoryState T,
    (List.length (past h) + List.length xs <= MAX_HISTORY_LENGTH)%nat ->
    past (setStates h xs) ++ present (setStates h xs) :: future (setStates h xs)
    = past h ++ present h :: match xs with [] => future h | _ => xs end.
Proof.
  induction xs as [|x xs IH]; intros h Hb; [reflexivity|].
  rewrite setStates_cons.
  change (List.length (x :: xs)) with (S (List.length xs)) in Hb.
  rewrite IH.
  - rewrite setState_past_length by lia. rewrite <- app_assoc. simpl.
    destruct xs; reflexivity.
  - rewrite setState_past_length by lia. rewrite length_app; simpl. lia.
Qed.

Lemma setStates_present (xs : list T) :
  forall h : HistoryState T,
    present (setStates h xs) = last xs (present h).
Proof.
  induction xs as [|x xs IH]; intros h; [reflexivity|].
  rewrite setStates_cons, IH.
  destruct xs as [|t xs]; [reflexivity|].
  change (last (x :: t :: xs) (present h)) with (last (t :: xs) (present h)).
  apply last_cons_default.
Qed.

(** C1. Starting from empty [past] and [future], after [N] recorded
    [setState] calls ([N] within the history bound), [N] undos followed
    by [N] redos give back the history as it stood after the [N]-th call;
    in particular [present] is the [N]-th value set. *)
Theorem undo_redo_roundtrip (init : T) (xs : list T) :
  (List.length xs <= MAX_HISTORY_LENGTH)%nat ->
  let N := List.length xs in
  let hN := setStates (mkHistory [] init []) xs in
  Nat.iter N redo (Nat.iter N undo hN) = hN
  /\ present (Nat.iter N redo (Nat.iter N undo hN)) = last xs init
  /\ present (Nat.iter N undo hN) = init.
Proof.
  intros Hb N hN.
  assert (HN : List.length (past hN) = N).
  { unfold hN. rewrite setStates_past_length; simpl; [reflexivity|lia]. }
  assert (RT : Nat.iter N redo (Nat.iter N undo hN) = hN).
  { apply undo_redo_iter. lia. }
  split; [exact RT|]. split.
  - rewrite RT. unfold hN. now rewrite setStates_present.
  - assert (E : nth_error (timeline (Nat.iter N undo hN))
                  (List.length (past (Nat.iter N undo hN)))
                = Some (present (Nat.iter N undo hN)))
      by apply present_nth.
    rewrite undo_iter_timeline, undo_iter_past_length, HN, Nat.sub_diag in E.
    unfold timeline, hN in E.
    rewrite setStates_timeline in E by (simpl; lia).
    simpl in E. now injection E.
Qed.

(** C2. A recorded [setState] puts the old [present] on top of [past]
    (evicting the oldest entry when [past] already holds
    [MAX_HISTORY_LENGTH] entries), installs the new value as [present] and
    empties [future]; a [skipHistory] call replaces [present] and keeps
    [past] and [future] as they are. *)
Theorem setState_contract (h : HistoryState T) (x : T) :
  let evicted :=
    if (MAX_HISTORY_LENGTH <=? List.length (past h))%nat then 1%nat
    else 0%nat in
  past (setState h x false) = skipn evicted (past h) ++ [present h]
  /\ present (setState h x false) = x
  /\ future (setState h x false) = []
  /\ past (setState h x true) = past h
  /\ present (setState h x true) = x
  /\ future (setState h x true) = future h.
Proof.
  cbv zeta. repeat split. unfold setState; cbn [past].
  rewrite length_app, Nat.add_1_r.
  destruct (past h) as [|p ps] eqn:E.
  - reflexivity.
  - change (MAX_HISTORY_LENGTH <? S (List.length (p :: ps)))%nat
      with (MAX_HISTORY_LENGTH <=? List.length (p :: ps))%nat.
    destruct (MAX_HISTORY_LENGTH <=? List.length (p :: ps))%nat; reflexivity.
Qed.

End Hook.

Lemma undo_redo_roundtrip_witness :
  (List.length [1; 2; 3] <= MAX_HISTORY_LENGTH)%nat
  /\ Nat.iter 3 redo (Nat.iter 3 undo (setStates (mkHistory [] 0 []) [1; 2; 3]))
     = setStates (mkHistory [] 0 []) [1; 2; 3]
  /\ present (Nat.iter 3 redo
                (Nat.iter 3 undo (setStates (mkHistory [] 0 []) [1; 2; 3]))) = 3
  /\ present (Nat.iter 3 undo (setStates (mkHistory [] 0 []) [1; 2; 3])) = 0.
Proof.
  split.
  - unfold MAX_HISTORY_LENGTH; simpl; lia.
  - apply (undo_redo_roundtrip 0 [1; 2; 3]).
    unfold MAX_HISTORY_LENGTH; simpl; lia.
Defined.

(** Skipped pushes are not individually undoable: one [undo] after a
    recorded push followed by two skipped ones returns to the state before
    the recorded push. *)
Example skipped_not_undoable :
  present (undo (setState (setState (setState (reset 0) 1 false) 2 true) 3 true))
  = 0.
Proof. reflexivity. Qed.

End History.

(** ** Scene model ([App.tsx]): shapes, connectors, editor state *)

Module Scene.
Local Open Scope Q_scope.

(** *** JavaScript idioms on numbers *)

(** Truthiness of a number: [0] is falsy. *)
Definition truthy (v : Q) : bool := negb (Qeq_bool v 0).

(** [v || d] for an optional numeric property [v]. *)
Definition orElse (v : option Q) (d : Q) : Q :=
match v with
| Some q => if truthy q then q else d
| None => d
end.

(** [a > b] as a test. *)
Definition Qgtb (a b : Q) : bool := negb (Qle_bool a b).

(** [Array.prototype.sort(cmp)], which is stable: each entry is put in
    front of the first entry after it that does not compare strictly
    below it. *)
Fixpoint sort_insert {A : Type} (cmp : A -> A -> Q) (a : A) (l : list A)
  : list A :=
match l with
| [] => [a]
| b :: l' => if Qgtb (cmp a b) 0 then b :: sort_insert cmp a l' else a :: l
end.

Definition sort {A : Type} (cmp : A -> A -> Q) (l : list A) : list A :=
fold_right (sort_insert cmp) [] l.

(** *** Data model *)

Inductive ShapeType : Set :=
| rect | circle | line | arrow | text | image | group.

Inductive TextAlign : Set := align_left | align_center | align_right.

(** The kind-specific part of a shape: one constructor per member of the
    [AnyShape] union, carrying the fields that member adds to [ShapeBase]. *)
Inductive Payload : Type :=
| RectShape (width height : Q) (cornerRadius : option Q)
| CircleShape (radius : Q)
| LineShape (points : list Q) (tension : option Q) (closed : option bool)
| ArrowShape (points : list Q) (pointerLength pointerWidth : option Q)
| TextShape (text : string) (fontSize : option Q) (width : option Q)
    (align : option TextAlign)
| ImageShape (src : string) (width height : option Q)
| GroupShape (children : list string) (width height : option Q).

Record AnyShape : Type := mkShape
  { id : string;
    x : Q;
    y : Q;
    rotation : option Q;
    fill : option string;
    stroke : option string;
    strokeWidth : option Q;
    draggable : option bool;
    opacity : option Q;
    name : option string;
    groupId : option string;
    payload : Payload }.

(** The [type] tag of a shape. *)
Definition type (s : AnyShape) : ShapeType :=
match payload s with
| RectShape _ _ _ => rect
| CircleShape _ => circle
| LineShape _ _ _ => line
| ArrowShape _ _ _ => arrow
| TextShape _ _ _ _ => text
| ImageShape _ _ _ => image
| GroupShape _ _ _ => group
end.

(** [(s as any).width] and [(s as any).height]: the property when the
    shape's kind has it and it is set, [undefined] otherwise. *)
Definition width (s : AnyShape) : option Q :=
match payload s with
| RectShape w _ _ => Some w
| TextShape _ _ w _ => w
| ImageShape _ w _ => w
| GroupShape _ w _ => w
| _ => None
end.

Definition height (s : AnyShape) : option Q :=
match payload s with
| RectShape _ h _ => Some h
| ImageShape _ _ h => h
| GroupShape _ _ h => h
| _ => None
end.

(** Object spreads [{ ...sh, x }], [{ ...sh, y }], [{ ...sh, groupId }]. *)
Definition set_x (v : Q) (s : AnyShape) : AnyShape :=
mkShape (id s) v (y s) (rotation s) (fill s) (stroke s) (strokeWidth s)
  (draggable s) (opacity s) (name s) (groupId s) (payload s).

Definition set_y (v : Q) (s : AnyShape) : AnyShape :=
mkShape (id s) (x s) v (rotation s) (fill s) (stroke s) (strokeWidth s)
  (draggable s) (opacity s) (name s) (groupId s) (payload s).

Definition set_groupId (g : option string) (s : AnyShape) : AnyShape :=
mkShape (id s) (x s) (y s) (rotation s) (fill s) (stroke s) (strokeWidth s)
  (draggable s) (opacity s) (name s) g (payload s).

Module Connector.
Record t : Type := mk
  { id : string;
    fromId : string;
    toId : string;
    points : list Q;
    stroke : option string;
    strokeWidth : option Q }.
Definition set_points (pts : list Q) (c : t) : t :=
mk (id c) (fromId c) (toId c) pts (stroke c) (strokeWidth c).
End Connector.

Module Size.
Record t : Type := mk { width : Q; height : Q }.
End Size.

(** What one render of [App] reads: the shape and connector lists, the
    selection and the stage size. *)
Record Editor : Type := mkEditor
  { shapes : list AnyShape;
    connectors : list Connector.t;
    selectedIds : list string;
    stageSize : Size.t }.

(** *** Bounding boxes and connector routing *)

Module BBox.
Record t : Type := mk { x : Q; y : Q; w : Q; h : Q }.
End BBox.

Definition getBBox (s : AnyShape) : BBox.t :=
match payload s with
| CircleShape radius =>
    BBox.mk (x s - radius) (y s - radius) (radius * 2) (radius * 2)
| _ =>
    let w := orElse (width s) 0 in
    let h := orElse (height s) 0 in
    BBox.mk (x s) (y s) w h
end.

Definition centerX (s : AnyShape) : Q :=
BBox.x (getBBox s) + BBox.w (getBBox s) / 2.

Definition centerY (s : AnyShape) : Q :=
BBox.y (getBBox s) + BBox.h (getBBox s) / 2.

Definition horizontalFirst (from to : AnyShape) : bool :=
Qgtb (Qabs (centerX from - centerX to)) (Qabs (centerY from - centerY to)).

Definition routeConnector (from to : AnyShape) : list Q :=
let start_x := centerX from in
let start_y := centerY from in
let end_x := centerX to in
let end_y := centerY to in
let via1_x := if horizontalFirst from to then end_x else start_x in
let via1_y := if horizontalFirst from to then start_y else end_y in
[start_x; start_y; via1_x; via1_y; end_x; end_y].

Definition findShape (i : string) (l : list AnyShape) : option AnyShape :=
find (fun s => String.eqb (id s) i) l.

(** *** Sample scenes *)

Definition sampleRect (i : string) (x0 y0 w h : Q) : AnyShape :=
mkShape i x0 y0 None None None None (Some true) None None None
  (RectShape w h None).

Definition sampleCircle (i : string) (x0 y0 r : Q) : AnyShape :=
mkShape i x0 y0 None None None None (Some true) None None None
  (CircleShape r).

(** *** Connector routing in both directions *)

(** The points of a flattened polyline [[x1; y1; x2; y2; ...]]. *)
Fixpoint toPoints (l : list Q) : list (Q * Q) :=
match l with
| a :: b :: l' => (a, b) :: toPoints l'
| _ => []
end.

(** The same polyline walked from its end to its start. *)
Definition reversed (l : list Q) : list Q :=
flat_map (fun p => [fst p; snd p]) (rev (toPoints l)).

Lemma horizontalFirst_sym (A B : AnyShape) :
  horizontalFirst A B = horizontalFirst B A.
Proof.
  unfold horizontalFirst.
  now rewrite (Qabs_Qminus (centerX A)), (Qabs_Qminus (centerY A)).
Qed.

(** C6, as the code has it. Both directions choose the same orientation
    and swap start and end, but each bends next to its own end: where
    A-to-B bends at (B.x, A.y), B-to-A bends at (A.x, B.y) (and the other
    way round when vertical-first). The two polylines are reverses of each
    other only when the two centers coincide. *)
Theorem route_symmetry (A B : AnyShape) :
  let hf := horizontalFirst A B in
  horizontalFirst B A = hf
  /\ routeConnector A B =
       [centerX A; centerY A;
        if hf then centerX B else centerX A;
        if hf then centerY A else centerY B;
        centerX B; centerY B]
  /\ routeConnector B A =
       [centerX B; centerY B;
        if hf then centerX A else centerX B;
        if hf then centerY B else centerY A;
        centerX A; centerY A]
  /\ (Forall2 Qeq (routeConnector B A) (reversed (routeConnector A B))
      <-> centerX A == centerX B /\ centerY A == centerY B).
Proof.
  intros hf. split; [symmetry; apply horizontalFirst_sym|].
  split; [reflexivity|].
  assert (E : routeConnector B A =
       [centerX B; centerY B;
        if hf then centerX A else centerX B;
        if hf then centerY B else centerY A;
        centerX A; centerY A]).
  { unfold routeConnector. rewrite <- (horizontalFirst_sym A B). reflexivity. }
  split; [exact E|].
  rewrite E. unfold routeConnector, reversed. fold hf. cbn.
  split.
  - intros H.
    inversion H as [|? ? ? ? _ H1]; subst; clear H.
    inversion H1 as [|? ? ? ? _ H2]; subst; clear H1.
    inversion H2 as [|? ? ? ? Hx H3]; subst; clear H2.
    inversion H3 as [|? ? ? ? Hy _]; subst; clear H3.
    destruct hf; split;
      first [exact Hx | exact Hy | symmetry; exact Hx | symmetry; exact Hy].
  - intros [Hx Hy].
    repeat constructor; try reflexivity; destruct hf;
      first [exact Hx | exact Hy | symmetry; exact Hx | symmetry; exact Hy].
Qed.

(** The specification's walk-through: a 240 by 140 rectangle at (100,100)
    has its center at (220,170), a circle at (300,300) is its own center,
    and the connector between them goes vertical-first. *)
Example route_rect_to_circle :
  map Qred
    (routeConnector (sampleRect "r" 100 100 240 140)
       (sampleCircle "c" 300 300 80))
  = [220; 170; 220; 300; 300; 300].
Proof. reflexivity. Qed.

(** C6 as stated fails: from a center at (0,0) to one at (10,4) the bend
    is (10,0); back, it is (0,4), not (10,0). *)
Lemma route_not_reversed :
  ~ Forall2 Qeq
      (routeConnector (sampleRect "b" 10 4 0 0) (sampleRect "a" 0 0 0 0))
      (reversed
         (routeConnector (sampleRect "a" 0 0 0 0) (sampleRect "b" 10 4 0 0))).
Proof.
  intros H. vm_compute in H.
  inversion H as [|? ? ? ? _ H1]; subst; clear H.
  inversion H1 as [|? ? ? ? _ H2]; subst; clear H1.
  inversion H2 as [|? ? ? ? Hx _]; subst; clear H2.
  discriminate Hx.
Qed.

(** *** List and number helpers *)



Lemma orElse_Some_0 (w : Q) : orElse (Some w) 0 == w.
Proof.
  unfold orElse, truthy. destruct (Qeq_bool w 0) eqn:E; simpl; [|reflexivity].
  apply Qeq_bool_eq in E. now symmetry.
Qed.

End Scene.

(** ** The editor as wired to the history ([App.tsx]) *)

Module App.
Import History Scene.
Local Open Scope Q_scope.

(** *** What the history holds

    [App] keeps its canvas in [useHistory]. The hook is handed a
    [{ shapes, connectors }] object when it is created and by
    [resetHistory]; [setShapes] and [setConnectors] hand it the closure
    [prev => ({ ...prev, shapes: updater(prev.shapes) })] (and the like for
    connectors), and [useHistory.setState] stores what it is handed as
    [present] without calling it. [refreshes] tells whether the body of
    the shapes closure also calls [refreshConnectors] on its result.
    With a closure as [present], [canvasState.shapes] and
    [canvasState.connectors] are [undefined]; the next render, which maps
    over both, and every handler that calls a method of [shapes] meet
    that [undefined]. *)
Inductive Canvas : Type :=
| CanvasState (shapes : list AnyShape) (connectors : list Connector.t)
| ShapesUpdater (updater : list AnyShape -> list AnyShape) (refreshes : bool)
| ConnectorsUpdater (updater : list Connector.t -> list Connector.t).

Record State : Type := mkState
  { history : HistoryState Canvas;
    selectedIds : list string;
    stageSize : Size.t }.

(** [state] of the hook, [canvasState] in [App]. *)
Definition canvasState (a : State) : Canvas := present (history a).

(** [canvasState.shapes] and [canvasState.connectors]; [None] is the
    [undefined] that reading the property of a function gives. *)
Definition shapes (a : State) : option (list AnyShape) :=
match canvasState a with
| CanvasState s _ => Some s
| _ => None
end.

Definition connectors (a : State) : option (list Connector.t) :=
match canvasState a with
| CanvasState _ c => Some c
| _ => None
end.

Definition setShapes (updater : list AnyShape -> list AnyShape)
  (refreshes skipHistory : bool) (a : State) : State :=
mkState (setState (history a) (ShapesUpdater updater refreshes) skipHistory)
  (selectedIds a) (stageSize a).

Definition setConnectors (updater : list Connector.t -> list Connector.t)
  (skipHistory : bool) (a : State) : State :=
mkState (setState (history a) (ConnectorsUpdater updater) skipHistory)
  (selectedIds a) (stageSize a).

Definition setSelectedIds (ids : list string) (a : State) : State :=
mkState (history a) ids (stageSize a).

Definition isSelected (a : State) (sh : AnyShape) : bool :=
includes (selectedIds a) (id sh).

(** The state right after [resetHistory({ shapes, connectors })], with a
    selection. *)
Definition loaded (l : list AnyShape) (cs : list Connector.t)
  (sel : list string) : State :=
mkState (reset (CanvasState l cs)) sel (Size.mk 1200 800).

(** How a handler ends: it returns, leaving a state; it throws the
    [TypeError] of calling a method of [undefined]; or it builds a number
    that is not finite, which [Q] does not hold. *)
Inductive Outcome : Type :=
| Done (a : State)
| TypeError
| NotFinite.

(** [Math.min(...l)] and [Math.max(...l)]; [None] is the [Infinity] or
    [-Infinity] JavaScript answers when there is no argument. *)
Definition Math_min (l : list Q) : option Q :=
match l with
| [] => None
| a :: l' => Some (fold_left Qmin l' a)
end.

Definition Math_max (l : list Q) : option Q :=
match l with
| [] => None
| a :: l' => Some (fold_left Qmax l' a)
end.

(** *** Grouping *)

(** The [group] object [groupSelected] builds from the current shapes. *)
Definition newGroup (groupId : string) (current : list AnyShape)
  (selectedIds : list string) : option AnyShape :=
let selectedShapes := filter (fun sh => includes selectedIds (id sh)) current in
let xs := map x selectedShapes in
let ys := map y selectedShapes in
match Math_min xs, Math_min ys,
      Math_max (map (fun s =>
        match payload s with
        | RectShape w _ _ => x s + w
        | CircleShape r => x s + r
        | ImageShape _ w _ => x s + orElse w 300
        | _ => x s + 100
        end) selectedShapes),
      Math_max (map (fun s =>
        match payload s with
        | RectShape _ h _ => y s + h
        | CircleShape r => y s + r
        | ImageShape _ _ h => y s + orElse h 200
        | _ => y s + 100
        end) selectedShapes) with
| Some minX, Some minY, Some maxX, Some maxY =>
    Some
      (mkShape groupId minX minY None None None None (Some true) None
         (Some ("Group of "
                ++ NilEmpty.string_of_uint
                     (Nat.to_uint (List.length selectedIds)))%string)
         None
         (GroupShape selectedIds (Some (maxX - minX)) (Some (maxY - minY))))
| _, _, _, _ => None
end.

(** The updater [groupSelected] hands to [setShapes]. *)
Definition groupUpdate (selectedIds : list string) (groupId : string)
  (group_ : AnyShape) (s : list AnyShape) : list AnyShape :=
map (fun sh =>
  if includes selectedIds (id sh) then set_groupId (Some groupId) sh else sh) s
++ [group_].

Definition groupSelected (groupId : string) (a : State) : Outcome :=
if (List.length (selectedIds a) <? 2)%nat then Done a else
match shapes a with
| None => TypeError
| Some current =>
    match newGroup groupId current (selectedIds a) with
    | None => NotFinite
    | Some group_ =>
        Done (setSelectedIds [groupId]
                (setShapes (groupUpdate (selectedIds a) groupId group_)
                   false false a))
    end
end.

(** The updater [ungroupSelected] hands to [setShapes]. *)
Definition ungroupUpdate (selectedId : string) (childrenIds : list string)
  (s : list AnyShape) : list AnyShape :=
map (fun sh => if includes childrenIds (id sh) then set_groupId None sh else sh)
  (filter (fun sh => negb (String.eqb (id sh) selectedId)) s).

Definition ungroupSelected (a : State) : Outcome :=
match selectedIds a with
| [selectedId] =>
    match shapes a with
    | None => TypeError
    | Some current =>
        match find (fun s => String.eqb (id s) selectedId) current with
        | Some shape =>
            match payload shape with
            | GroupShape childrenIds _ _ =>
                Done (setSelectedIds childrenIds
                        (setShapes (ungroupUpdate selectedId childrenIds)
                           false false a))
            | _ => Done a
            end
        | None => Done a
        end
    end
| _ => Done a
end.

(** *** Connectors *)

(** What the updater of [refreshConnectors] does to one connector. *)
Definition refreshOne (nextShapes : list AnyShape) (c : Connector.t)
  : Connector.t :=
match findShape (Connector.fromId c) nextShapes,
      findShape (Connector.toId c) nextShapes with
| Some from, Some to => Connector.set_points (routeConnector from to) c
| _, _ => c
end.

(** The updater [refreshConnectors] hands to [setConnectors]. *)
Definition refreshUpdate (nextShapes : list AnyShape)
  (curr : list Connector.t) : list Connector.t :=
map (refreshOne nextShapes) curr.

Definition refreshConnectors (nextShapes : list AnyShape) (a : State)
  : State :=
setConnectors (refreshUpdate nextShapes) false a.

(** *** Layout: alignment and distribution *)

Inductive AlignMode : Set :=
| mode_left | mode_right | mode_top | mode_bottom | mode_hcenter | mode_vcenter.

Inductive Axis : Set := axis_h | axis_v.

(** [v ? yes(v) : no] for an optional numeric property [v]. *)
Definition ifTruthy (v : option Q) (yes : Q -> Q) (no : Q) : Q :=
match v with
| Some q => if truthy q then yes q else no
| None => no
end.

(** The updater [alignSelected] hands to [setShapes]; called, it would
    also refresh the connectors on its result. *)
Definition alignUpdate (mode : AlignMode) (selectedIds : list string)
  (stageSize : Size.t) (s : list AnyShape) : list AnyShape :=
map (fun sh =>
  if negb (includes selectedIds (id sh)) then sh else
  let width_ := Size.width stageSize in
  let height_ := Size.height stageSize in
  match mode with
  | mode_left => set_x 10 sh
  | mode_right =>
      set_x (ifTruthy (width sh) (fun w => width_ - w - 10) (width_ - 10)) sh
  | mode_top => set_y 10 sh
  | mode_bottom =>
      set_y (ifTruthy (height sh) (fun h => height_ - h - 10) (height_ - 10)) sh
  | mode_hcenter => set_x (Qmax 0 ((width_ - orElse (width sh) 0) / 2)) sh
  | mode_vcenter => set_y (Qmax 0 ((height_ - orElse (height sh) 0) / 2)) sh
  end) s.

Definition alignSelected (mode : AlignMode) (a : State) : State :=
match selectedIds a with
| [] => a
| _ => setShapes (alignUpdate mode (selectedIds a) (stageSize a)) true false a
end.

(** An entry of [boxes]: a selected shape [s] spread with its bounding box. *)
Definition Box : Type := (AnyShape * BBox.t)%type.

Definition near (axis : Axis) (b : Box) : Q :=
match axis with axis_h => BBox.x (snd b) | axis_v => BBox.y (snd b) end.

Definition extent (axis : Axis) (b : Box) : Q :=
match axis with axis_h => BBox.w (snd b) | axis_v => BBox.h (snd b) end.

(** The updater [distribute] hands to [setShapes], closed over [sorted],
    [first] and [gaps]; called, it would also refresh the connectors. *)
Definition distributeUpdate (axis : Axis) (sorted : list Box) (first : Box)
  (gaps : Q) (all : list AnyShape) : list AnyShape :=
map (fun sh =>
  match findIndex (fun b => String.eqb (id (fst b)) (id sh)) sorted with
  | None => sh
  | Some idx =>
      if (idx =? 0)%nat || (idx =? List.length sorted - 1)%nat then sh else
      let pos :=
        fold_left
          (fun pos i => pos + (extent axis (nth i sorted first) + gaps))
          (seq 1 (idx - 1))
          (near axis first + extent axis first) in
      match axis with
      | axis_h => set_x pos sh
      | axis_v => set_y pos sh
      end
  end) all.

Definition distribute (axis : Axis) (a : State) : Outcome :=
match shapes a with
| None => TypeError
| Some current =>
  let selected := filter (isSelected a) current in
  if (List.length selected <? 3)%nat then Done a else
  let boxes := map (fun s => (s, getBBox s)) selected in
  let sorted := sort (fun a b => near axis a - near axis b) boxes in
  match sorted with
  | [] => Done a
  | first :: _ =>
    let last := List.last sorted first in
    let span := near axis last - near axis first in
    let sizes := map (extent axis) sorted in
    let totalSize := fold_left Qplus sizes 0 in
    let gaps :=
      (span - (totalSize - extent axis first))
      / inject_Z (Z.of_nat (List.length sorted - 1)) in
    Done (setShapes (distributeUpdate axis sorted first gaps) true false a)
  end
end.

(** *** What a history-wired update leaves behind *)

Lemma setShapes_reads (u : list AnyShape -> list AnyShape) (r skip : bool)
    (a : State) :
  canvasState (setShapes u r skip a) = ShapesUpdater u r
  /\ shapes (setShapes u r skip a) = None
  /\ connectors (setShapes u r skip a) = None
  /\ selectedIds (setShapes u r skip a) = selectedIds a.
Proof. unfold canvasState, shapes, connectors, setShapes, setState. now destruct skip. Qed.

Lemma setConnectors_reads (u : list Connector.t -> list Connector.t)
    (skip : bool) (a : State) :
  canvasState (setConnectors u skip a) = ConnectorsUpdater u
  /\ shapes (setConnectors u skip a) = None
  /\ connectors (setConnectors u skip a) = None
  /\ selectedIds (setConnectors u skip a) = selectedIds a.
Proof.
  unfold canvasState, shapes, connectors, setConnectors, setState.
  now destruct skip.
Qed.

(** *** Frame of the layout updaters *)

(** [b] is [a] with, at most, other coordinates: every field but [x] and
    [y] is the same. *)
Definition same_except_xy (a b : AnyShape) : Prop :=
id b = id a /\ rotation b = rotation a /\ fill b = fill a
/\ stroke b = stroke a /\ strokeWidth b = strokeWidth a
/\ draggable b = draggable a /\ opacity b = opacity a /\ name b = name a
/\ groupId b = groupId a /\ payload b = payload a.

Lemma same_except_xy_refl (a : AnyShape) : same_except_xy a a.
Proof. unfold same_except_xy; repeat split. Qed.

Lemma same_except_xy_set_x (v : Q) (a : AnyShape) :
  same_except_xy a (set_x v a).
Proof. unfold same_except_xy; repeat split. Qed.

Lemma same_except_xy_set_y (v : Q) (a : AnyShape) :
  same_except_xy a (set_y v a).
Proof. unfold same_except_xy; repeat split. Qed.

Create HintDb frame.
#[local] Hint Resolve same_except_xy_refl same_except_xy_set_x
  same_except_xy_set_y : frame.

Lemma map_frame (f : AnyShape -> AnyShape) (l : list AnyShape) :
  (forall sh, same_except_xy sh (f sh)) ->
  List.length (map f l) = List.length l
  /\ map id (map f l) = map id l
  /\ Forall2 same_except_xy l (map f l).
Proof.
  intros Hf. split; [apply length_map|]. split.
  - rewrite map_map. apply map_ext. intros sh. apply (Hf sh).
  - induction l as [|a l IH]; simpl; constructor; auto.
Qed.

(** Applied to a shape list, the updaters of [alignSelected] and
    [distribute] keep its length, order and ids and change at most [x] and
    [y] of a shape. *)
Lemma layout_updates_frame (mode : AlignMode) (axis : Axis)
    (sel : list string) (sz : Size.t) (sorted : list Box) (first : Box)
    (gaps : Q) (l : list AnyShape) :
  (List.length (alignUpdate mode sel sz l) = List.length l
   /\ map id (alignUpdate mode sel sz l) = map id l
   /\ Forall2 same_except_xy l (alignUpdate mode sel sz l))
  /\ (List.length (distributeUpdate axis sorted first gaps l) = List.length l
      /\ map id (distributeUpdate axis sorted first gaps l) = map id l
      /\ Forall2 same_except_xy l (distributeUpdate axis sorted first gaps l)).
Proof.
  split; apply map_frame; intros sh; cbv beta.
  - destruct (negb _); [auto with frame|]. destruct mode; auto with frame.
  - destruct (findIndex _ _) as [idx|]; [|auto with frame].
    destruct (_ || _); [auto with frame|]. destruct axis; auto with frame.
Qed.

(** *** Sample states *)

Definition oneRect : State :=
loaded [sampleRect "a" 40 40 10 10] [] ["a"%string].

(** Three 10-wide rectangles at x = 0, 50, 100: already evenly spread. *)
Definition threeRects : State :=
loaded
  [sampleRect "a" 0 0 10 10; sampleRect "b" 50 0 10 10;
   sampleRect "c" 100 0 10 10]
  [] ["a"; "b"; "c"]%string.

Definition twoCircles : State :=
loaded [sampleCircle "a" 100 100 50; sampleCircle "b" 300 300 50] []
  ["a"; "b"]%string.

Definition flatShapes : list AnyShape :=
[sampleRect "a" 0 0 10 10; sampleRect "b" 20 0 10 10].


(** C10 at a loaded scene with one selected rectangle, and at three
    selected rectangles. Before the handler the shape list is there;
    [alignSelected] and [distribute] hand their updater to [setShapes],
    the history stores the closure as the present document without calling
    it, and afterwards [canvasState.shapes] is [undefined]: no list is left
    whose length, order or ids could be the same. The updater that was
    stored would have moved the rectangle to x = 10 and changed nothing
    else. *)
Theorem layout_drops_shape_list :
  shapes oneRect = Some [sampleRect "a" 40 40 10 10]
  /\ canvasState (alignSelected mode_left oneRect)
     = ShapesUpdater
         (alignUpdate mode_left ["a"%string] (Size.mk 1200 800)) true
  /\ shapes (alignSelected mode_left oneRect) = None
  /\ alignUpdate mode_left ["a"%string] (Size.mk 1200 800)
       [sampleRect "a" 40 40 10 10]
     = [sampleRect "a" 10 40 10 10]
  /\ exists u a1,
       distribute axis_h threeRects = Done a1
       /\ canvasState a1 = ShapesUpdater u true
       /\ shapes a1 = None.
Proof.
  repeat split. do 2 eexists. repeat split.
Qed.

(** *** Grouping, then ungrouping *)











(** *** The group's box *)

(** The union of the members' bounding boxes, each as [getBBox] gives it:
    the least corner, and the span from it to the greatest far edge;
    [None] when there is no member. *)
Definition unionBBox (members : list AnyShape) : option BBox.t :=
let boxes := map getBBox members in
match Math_min (map BBox.x boxes), Math_min (map BBox.y boxes),
      Math_max (map (fun b => BBox.x b + BBox.w b) boxes),
      Math_max (map (fun b => BBox.y b + BBox.h b) boxes) with
| Some minX, Some minY, Some maxX, Some maxY =>
    Some (BBox.mk minX minY (maxX - minX) (maxY - minY))
| _, _, _, _ => None
end.

(** C4 at two circles of radius 50 centered at (100,100) and (300,300).
    The members' boxes span 50..350 on both axes, so their union is
    (50, 50, 300, 300). The group [groupSelected] builds takes the least
    center, not the least box edge, as its corner: it is at (100, 100)
    and sized 250 by 250. It lists the member ids, and the updater handed
    to [setShapes] marks both members and appends the group; but the
    history stores that updater without calling it, so after the handler
    the shape list is [undefined] and holds no group. *)
Theorem group_bbox_two_circles :
  unionBBox [sampleCircle "a" 100 100 50; sampleCircle "b" 300 300 50]
  = Some (BBox.mk 50 50 300 300)
  /\ exists g a1,
       newGroup "g" [sampleCircle "a" 100 100 50; sampleCircle "b" 300 300 50]
         ["a"; "b"]%string = Some g
       /\ id g = "g"%string
       /\ x g = 100 /\ y g = 100
       /\ payload g = GroupShape ["a"; "b"]%string (Some 250) (Some 250)
       /\ map groupId
            (groupUpdate ["a"; "b"]%string "g" g
               [sampleCircle "a" 100 100 50; sampleCircle "b" 300 300 50])
          = [Some "g"%string; Some "g"%string; None]
       /\ groupSelected "g" twoCircles = Done a1
       /\ canvasState a1 = ShapesUpdater (groupUpdate ["a"; "b"]%string "g" g)
                             false
       /\ shapes a1 = None.
Proof.
  split; [reflexivity|].
  do 2 eexists. split; [reflexivity|]. repeat split.
Qed.

Lemma fold_Qmax_compat (l l' : list Q) :
  Forall2 Qeq l l' ->
  forall a a', a == a' -> fold_left Qmax l a == fold_left Qmax l' a'.
Proof.
  induction 1 as [|b b' l l' Hb _ IH]; intros a a' Ha; simpl; [exact Ha|].
  apply IH. now apply Q.max_compat.
Qed.

Lemma Forall2_map_in {A : Type} (f g : A -> Q) (l : list A) :
  (forall a, In a l -> f a == g a) -> Forall2 Qeq (map f l) (map g l).
Proof.
  induction l as [|a l IH]; intros H; simpl; constructor.
  - apply H. now left.
  - apply IH. intros b Hb. apply H. now right.
Qed.

Lemma Math_max_compat {A : Type} (f g : A -> Q) (l : list A) (m : Q) :
  (forall a, In a l -> f a == g a) ->
  Math_max (map f l) = Some m ->
  exists m', Math_max (map g l) = Some m' /\ m == m'.
Proof.
  intros H. destruct l as [|a l]; simpl; [discriminate|].
  intros [= <-]. eexists. split; [reflexivity|].
  apply fold_Qmax_compat.
  - apply Forall2_map_in. intros b Hb. apply H. now right.
  - apply H. now left.
Qed.

(** Where C4's box does hold: when every selected shape is a rectangle,
    the group [groupSelected] builds sits on the union of the members'
    bounding boxes. *)
Lemma group_bbox_rects (gid : string) (l : list AnyShape)
    (sel : list string) (g : AnyShape) :
  (forall sh, In sh l -> includes sel (id sh) = true -> type sh = rect) ->
  newGroup gid l sel = Some g ->
  exists U w h,
    unionBBox (filter (fun sh => includes sel (id sh)) l) = Some U
    /\ payload g = GroupShape sel (Some w) (Some h)
    /\ x g == BBox.x U /\ y g == BBox.y U
    /\ w == BBox.w U /\ h == BBox.h U.
Proof.
  intros Hrect. unfold newGroup, unionBBox.
  set (members := filter (fun sh => includes sel (id sh)) l).
  assert (Hm : forall sh, In sh members -> type sh = rect).
  { intros sh Hin. apply filter_In in Hin as [Hin Hsel]. now apply Hrect. }
  assert (Ex : map BBox.x (map getBBox members) = map x members).
  { rewrite map_map. apply map_ext_in. intros sh Hin.
    specialize (Hm sh Hin). unfold type, getBBox in *.
    destruct (payload sh); try discriminate; reflexivity. }
  assert (Ey : map BBox.y (map getBBox members) = map y members).
  { rewrite map_map. apply map_ext_in. intros sh Hin.
    specialize (Hm sh Hin). unfold type, getBBox in *.
    destruct (payload sh); try discriminate; reflexivity. }
  rewrite Ex, Ey, !map_map.
  destruct (Math_min (map x members)) as [minX|]; [|discriminate].
  destruct (Math_min (map y members)) as [minY|]; [|discriminate].
  destruct (Math_max (map _ members)) as [maxX|] eqn:EX; [|discriminate].
  destruct (Math_max (map _ members)) as [maxY|] eqn:EY in |- *;
    [|discriminate].
  intros [= <-].
  assert (HX : forall sh, In sh members ->
            match payload sh with
            | RectShape w _ _ => x sh + w
            | CircleShape r => x sh + r
            | ImageShape _ w _ => x sh + orElse w 300
            | _ => x sh + 100
            end == BBox.x (getBBox sh) + BBox.w (getBBox sh)).
  { intros sh Hin. specialize (Hm sh Hin).
    unfold type, getBBox, width, height in *.
    destruct (payload sh); try discriminate.
    cbn [BBox.x BBox.w]. now rewrite orElse_Some_0. }
  assert (HY : forall sh, In sh members ->
            match payload sh with
            | RectShape _ h _ => y sh + h
            | CircleShape r => y sh + r
            | ImageShape _ _ h => y sh + orElse h 200
            | _ => y sh + 100
            end == BBox.y (getBBox sh) + BBox.h (getBBox sh)).
  { intros sh Hin. specialize (Hm sh Hin).
    unfold type, getBBox, width, height in *.
    destruct (payload sh); try discriminate.
    cbn [BBox.y BBox.h]. now rewrite orElse_Some_0. }
  destruct (Math_max_compat _ _ _ _ HX EX) as (mx & -> & Hmx).
  destruct (Math_max_compat _ _ _ _ HY EY) as (my & -> & Hmy).
  do 3 eexists. split; [reflexivity|]. split; [reflexivity|].
  cbn [x y BBox.x BBox.y BBox.w BBox.h].
  repeat split; try reflexivity; [now rewrite Hmx|now rewrite Hmy].
Qed.

(** *** Distribution *)

(** The gaps between consecutive bounding boxes of [l] along [axis]: from
    the far edge of each box to the near edge of the next. *)
Fixpoint gapsAlong (axis : Axis) (l : list AnyShape) : list Q :=
match l with
| a :: (b :: _) as l' =>
    (near axis (b, getBBox b)
     - (near axis (a, getBBox a) + extent axis (a, getBBox a)))
    :: gapsAlong axis l'
| _ => []
end.

Lemma distribute_lt3_noop (axis : Axis) (a : State) (l : list AnyShape) :
  shapes a = Some l ->
  (List.length (filter (isSelected a) l) < 3)%nat ->
  distribute axis a = Done a.
Proof.
  intros Hs H. unfold distribute. rewrite Hs.
  destruct (Nat.ltb_spec (List.length (filter (isSelected a) l)) 3);
    [reflexivity|lia].
Qed.

(** C5 at three 10-wide rectangles at x = 0, 50, 100, whose gaps are 40
    and 40. The updater [distribute] hands to [setShapes] keeps the first
    and the last where they are but puts the middle one at x = 10, flush
    against the first: the gaps become 0 and 80, not equal. And the
    history stores that updater without calling it, so after the handler
    the shape list is [undefined]. *)
Theorem distribute_three_rects :
  exists u a1,
    distribute axis_h threeRects = Done a1
    /\ canvasState a1 = ShapesUpdater u true
    /\ shapes a1 = None
    /\ shapes threeRects
       = Some [sampleRect "a" 0 0 10 10; sampleRect "b" 50 0 10 10;
               sampleRect "c" 100 0 10 10]
    /\ gapsAlong axis_h
         [sampleRect "a" 0 0 10 10; sampleRect "b" 50 0 10 10;
          sampleRect "c" 100 0 10 10] = [40; 40]
    /\ map x (u [sampleRect "a" 0 0 10 10; sampleRect "b" 50 0 10 10;
                 sampleRect "c" 100 0 10 10]) = [0; 10; 100]
    /\ map y (u [sampleRect "a" 0 0 10 10; sampleRect "b" 50 0 10 10;
                 sampleRect "c" 100 0 10 10]) = [0; 0; 0]
    /\ gapsAlong axis_h
         (u [sampleRect "a" 0 0 10 10; sampleRect "b" 50 0 10 10;
             sampleRect "c" 100 0 10 10]) = [0; 80].
Proof.
  do 2 eexists. split; [reflexivity|]. repeat split.
Qed.

End App.

(** ** SVG export ([utils/svgExport.ts] and [exportSVG_Native]) *)

Module SvgExport.
Import Scene.
Local Open Scope string_scope.

(** *** String primitives

    A string is a sequence of 8-bit code units. [toLowerCase] folds the
    letters A to Z and leaves every other unit as it is; [trim] strips the
    white space and line terminators of that range. *)

Definition lowerChar (c : ascii) : ascii :=
let n := nat_of_ascii c in
if ((65 <=? n) && (n <=? 90))%nat then ascii_of_nat (n + 32) else c.

Fixpoint toLowerCase (s : string) : string :=
match s with
| EmptyString => EmptyString
| String c s' => String (lowerChar c) (toLowerCase s')
end.

Definition isWhitespace (c : ascii) : bool :=
let n := nat_of_ascii c in
((9 <=? n) && (n <=? 13) || (n =? 32) || (n =? 160))%nat.

Fixpoint trimStart (s : string) : string :=
match s with
| EmptyString => EmptyString
| String c s' => if isWhitespace c then trimStart s' else s
end.

Fixpoint trimEnd (s : string) : string :=
match s with
| EmptyString => EmptyString
| String c s' =>
    match trimEnd s' with
    | EmptyString => if isWhitespace c then EmptyString else String c EmptyString
    | t => String c t
    end
end.

Definition trim (s : string) : string := trimEnd (trimStart s).

Definition startsWith (s p : string) : bool := String.prefix p s.

(** [str.replace(/c/g, r)] for a single character [c]. *)
Fixpoint replaceAll (c : ascii) (r : string) (s : string) : string :=
match s with
| EmptyString => EmptyString
| String d s' =>
    if Ascii.eqb d c then r ++ replaceAll c r s' else String d (replaceAll c r s')
end.

(** The double quote, as a character and as a one-character string. *)
Definition dquote : ascii := "034"%char.
Definition dq : string := String dquote EmptyString.

(** [name="value"] preceded by [pre]. *)
Definition attr (pre value : string) : string := pre ++ dq ++ value ++ dq.

(** [content.push(line)] on an empty batch. *)
Definition push (line : string) : list string := cons line nil.

(** *** Sanitizers *)

Definition escapeXML (str : string) : string :=
replaceAll "'" "&apos;"
  (replaceAll dquote "&quot;"
    (replaceAll ">" "&gt;"
      (replaceAll "<" "&lt;"
        (replaceAll "&" "&amp;" str)))).

Definition sanitizeURL (url : string) : string :=
if String.eqb url "" then "" else
let lowercaseURL := trim (toLowerCase url) in
if startsWith lowercaseURL "javascript:"
   || startsWith lowercaseURL "data:text/html"
   || startsWith lowercaseURL "vbscript:"
then ""
else escapeXML url.

(** Truthiness of an optional string: set and not empty. *)
Definition truthyStr (v : option string) : option string :=
match v with
| Some t => if String.eqb t "" then None else Some t
| None => None
end.

(** *** The content lines of [exportSVG_Native]

    [formatNumber] rounds and prints a number and [normalizeColor] rewrites
    a colour; how they print is left open here. *)

Section Content.
Variable formatNumber : Q -> string.
Variable normalizeColor : option string -> string.

Definition joinPoints (points : list Q) : string :=
String.concat "," (map formatNumber points).

(** The lines the shape loop pushes for one shape. *)
Definition emitShape (s : AnyShape) : list string :=
match truthyStr (groupId s) with
| Some _ => []
| None =>
  let rot := orElse (rotation s) 0 in
  let transform :=
    if truthy rot then
      attr " transform="
        ("rotate(" ++ formatNumber rot ++ " " ++ formatNumber (x s) ++ " "
         ++ formatNumber (y s) ++ ")")
    else "" in
  let strokeAttr :=
    match truthyStr (stroke s) with
    | Some c =>
        attr " stroke=" (normalizeColor (Some c))
        ++ attr " stroke-width=" (formatNumber (orElse (strokeWidth s) 1))
    | None => ""
    end in
  let fillAttr :=
    match truthyStr (fill s) with
    | Some c => attr " fill=" (normalizeColor (Some c))
    | None => attr " fill=" "none"
    end in
  let opacityAttr :=
    match opacity s with
    | Some o =>
        if truthy o && negb (Qle_bool 1 o)
        then attr " opacity=" (formatNumber o) else ""
    | None => ""
    end in
  let orStr (v : option string) (d : string) :=
    match truthyStr v with Some c => c | None => d end in
  match payload s with
  | RectShape width height cornerRadius =>
      push (attr "<rect x=" (formatNumber (x s))
       ++ attr " y=" (formatNumber (y s)) ++ " "
       ++ attr "width=" (formatNumber width)
       ++ attr " height=" (formatNumber height) ++ " "
       ++ attr "rx=" (formatNumber (orElse cornerRadius 0))
       ++ fillAttr ++ strokeAttr ++ opacityAttr ++ transform ++ "/>")
  | CircleShape radius =>
      push (attr "<circle cx=" (formatNumber (x s))
       ++ attr " cy=" (formatNumber (y s)) ++ " "
       ++ attr "r=" (formatNumber radius)
       ++ fillAttr ++ strokeAttr ++ opacityAttr ++ transform ++ "/>")
  | TextShape text_ fontSize _ align =>
      let anchor :=
        match align with
        | Some align_center => attr " text-anchor=" "middle"
        | Some align_right => attr " text-anchor=" "end"
        | Some align_left => attr " text-anchor=" "start"
        | None => ""
        end in
      push (attr "<text x=" (formatNumber (x s))
       ++ attr " y=" (formatNumber (y s + orElse fontSize 24)%Q) ++ " "
       ++ attr "font-size=" (formatNumber (orElse fontSize 24)) ++ " "
       ++ attr "fill=" (normalizeColor (Some (orStr (fill s) "#0f172a")))
       ++ anchor ++ opacityAttr ++ transform ++ ">"
       ++ escapeXML text_ ++ "</text>")
  | LineShape points _ _ =>
      push (attr "<polyline points=" (joinPoints points)
       ++ attr " fill=" "none" ++ " "
       ++ attr "stroke=" (normalizeColor (Some (orStr (stroke s) "#000")))
       ++ " "
       ++ attr "stroke-width=" (formatNumber (orElse (strokeWidth s) 1))
       ++ opacityAttr ++ transform ++ "/>")
  | ArrowShape points _ _ =>
      push (attr "<polyline points=" (joinPoints points)
       ++ attr " fill=" "none" ++ " "
       ++ attr "stroke=" (normalizeColor (Some (orStr (stroke s) "#000")))
       ++ " "
       ++ attr "stroke-width=" (formatNumber (orElse (strokeWidth s) 1))
       ++ " "
       ++ attr "marker-end=" "url(#arrowhead)"
       ++ opacityAttr ++ transform ++ "/>")
  | ImageShape src width height =>
      let w := orElse width 300 in
      let h := orElse height 200 in
      let safeSrc := sanitizeURL src in
      if String.eqb safeSrc "" then []
      else
        push (attr "<image href=" safeSrc
         ++ attr " x=" (formatNumber (x s))
         ++ attr " y=" (formatNumber (y s)) ++ " "
         ++ attr "width=" (formatNumber w)
         ++ attr " height=" (formatNumber h)
         ++ opacityAttr ++ transform ++ "/>")
  | GroupShape _ width height =>
      push (attr "<rect x=" (formatNumber (x s))
       ++ attr " y=" (formatNumber (y s)) ++ " "
       ++ attr "width=" (formatNumber (orElse width 100))
       ++ attr " height=" (formatNumber (orElse height 100)) ++ " "
       ++ attr "fill=" "rgba(59, 130, 246, 0.05)"
       ++ attr " stroke=" "#94a3b8"
       ++ attr " stroke-width=" "1"
       ++ attr " stroke-dasharray=" "8,4"
       ++ opacityAttr ++ transform ++ "/>")
  end
end.

Definition emitConnector (c : Connector.t) : string :=
attr "<polyline points=" (joinPoints (Connector.points c))
++ attr " fill=" "none" ++ " "
++ attr "stroke="
     (normalizeColor
        (Some (match truthyStr (Connector.stroke c) with
               | Some v => v
               | None => "#0f172a"
               end)))
++ " "
++ attr "stroke-width=" (formatNumber (orElse (Connector.strokeWidth c) 2))
++ " "
++ attr "marker-end=" "url(#arrowhead)" ++ "/>".

(** The [content] array handed to [createSVG]. *)
Definition exportContent (st : Editor) : list string :=
(flat_map emitShape (shapes st) ++ map emitConnector (connectors st))%list.

End Content.

(** *** The scheme denylist *)

Definition denylist : list string :=
["javascript:"; "data:text/html"; "vbscript:"]%list.

(** The test [sanitizeURL] makes: the lowercased, trimmed URL starts with
    a denylisted scheme. *)
Definition denylisted (url : string) : bool :=
existsb (startsWith (trim (toLowerCase url))) denylist.

Fixpoint allWhitespace (s : string) : bool :=
match s with
| EmptyString => true
| String c s' => isWhitespace c && allWhitespace s'
end.

(** The last character of [s] exists and is not white space. *)
Fixpoint endsSolid (s : string) : bool :=
match s with
| EmptyString => false
| String c EmptyString => negb (isWhitespace c)
| String _ s' => endsSolid s'
end.

Lemma sanitizeURL_denylisted (url : string) :
  denylisted url = true -> sanitizeURL url = "".
Proof.
  unfold denylisted, sanitizeURL, denylist; cbn [existsb].
  rewrite orb_false_r, orb_assoc. intros ->.
  now destruct (String.eqb url "").
Qed.

Lemma lowerChar_whitespace (c : ascii) :
  isWhitespace c = true -> lowerChar c = c.
Proof.
  destruct c as [[] [] [] [] [] [] [] []]; vm_compute; congruence.
Qed.

Lemma toLowerCase_app (s t : string) :
  toLowerCase (s ++ t) = toLowerCase s ++ toLowerCase t.
Proof. induction s as [|c s IH]; simpl; [reflexivity|now rewrite IH]. Qed.

Lemma toLowerCase_whitespace (s : string) :
  allWhitespace s = true -> toLowerCase s = s.
Proof.
  induction s as [|c s IH]; simpl; [reflexivity|].
  intros H. apply andb_prop in H as [Hc Hs].
  now rewrite lowerChar_whitespace, IH.
Qed.

Lemma trimStart_whitespace_app (ws s : string) :
  allWhitespace ws = true -> trimStart (ws ++ s) = trimStart s.
Proof.
  induction ws as [|c ws IH]; simpl; [reflexivity|].
  intros H. apply andb_prop in H as [Hc Hs]. rewrite Hc. now apply IH.
Qed.

Lemma trimEnd_solid_app (p r : string) :
  endsSolid p = true -> trimEnd (p ++ r) = p ++ trimEnd r.
Proof.
  induction p as [|c p IH]; [discriminate|].
  destruct p as [|d p].
  - cbn [endsSolid]. intros H. apply negb_true_iff in H.
    cbn [append trimEnd]. rewrite H. now destruct (trimEnd r).
  - intros H. change (endsSolid (String d p) = true) in H.
    specialize (IH H).
    change (trimEnd (String c (String d p ++ r)) = String c (String d p ++ trimEnd r)).
    cbn [trimEnd]. rewrite IH. reflexivity.
Qed.

Lemma startsWith_app (p t : string) : startsWith (p ++ t) p = true.
Proof.
  unfold startsWith. induction p as [|c p IH]; simpl.
  - now destruct t.
  - destruct (ascii_dec c c) as [_|N]; [exact IH|now elim N].
Qed.

(** A URL made of white space, then a denylisted scheme in any letter
    case, then anything, passes the denylist test. *)
Lemma denylisted_variant (ws p rest : string) :
  allWhitespace ws = true ->
  In (toLowerCase p) denylist ->
  denylisted (ws ++ p ++ rest) = true.
Proof.
  intros Hws Hp. unfold denylisted.
  rewrite !toLowerCase_app, (toLowerCase_whitespace ws Hws).
  unfold trim. rewrite (trimStart_whitespace_app ws _ Hws).
  apply existsb_exists. exists (toLowerCase p). split; [exact Hp|].
  assert (Hstart : trimStart (toLowerCase p ++ toLowerCase rest)
                   = toLowerCase p ++ toLowerCase rest
                   /\ endsSolid (toLowerCase p) = true).
  { destruct Hp as [<-|[<-|[<-|[]]]]; split; reflexivity. }
  destruct Hstart as [-> Hsolid].
  rewrite (trimEnd_solid_app _ _ Hsolid). apply startsWith_app.
Qed.

(** C9. The denylist test is made on the lowercased, trimmed URL: a URL
    that is a denylisted scheme up to letter case, after any leading white
    space and before anything else (trailing white space included), is
    blocked, and [sanitizeURL] returns the empty string. *)
Theorem sanitizeURL_blocks_variants (ws p rest : string) :
  allWhitespace ws = true ->
  In (toLowerCase p) denylist ->
  sanitizeURL (ws ++ p ++ rest) = "".
Proof.
  intros Hws Hp. apply sanitizeURL_denylisted. now apply denylisted_variant.
Qed.

Lemma sanitizeURL_blocks_variants_witness :
  allWhitespace "  " = true
  /\ In (toLowerCase "JavaScript:") denylist
  /\ sanitizeURL "  JavaScript:alert(1)" = "".
Proof.
  split; [reflexivity|]. split; [left; reflexivity|].
  apply (sanitizeURL_blocks_variants "  " "JavaScript:" "alert(1)").
  - reflexivity.
  - left; reflexivity.
Defined.

(** A URL outside the denylist is kept, escaped. *)
Example sanitizeURL_keeps_http :
  sanitizeURL "http://a/b.png?x=1&y=2" = "http://a/b.png?x=1&amp;y=2".
Proof. reflexivity. Qed.

(** C7. An image whose URL matches the scheme denylist contributes no
    line to the export: no [href] attribute (and no [image] element) is
    emitted for it, and the exported content is the one of the scene
    without that shape. *)
Theorem export_drops_denylisted_image
    (formatNumber : Q -> string) (normalizeColor : option string -> string)
    (s : AnyShape) (src : string) (w h : option Q) :
  payload s = ImageShape src w h ->
  denylisted src = true ->
  emitShape formatNumber normalizeColor s = nil
  /\ forall l1 l2 cs sel sz,
       exportContent formatNumber normalizeColor
         (mkEditor (l1 ++ s :: l2)%list cs sel sz)
       = exportContent formatNumber normalizeColor
           (mkEditor (l1 ++ l2)%list cs sel sz).
Proof.
  intros Hp Hd.
  assert (E : emitShape formatNumber normalizeColor s = nil).
  { unfold emitShape. rewrite Hp, (sanitizeURL_denylisted src Hd).
    now destruct (truthyStr (groupId s)). }
  split; [exact E|].
  intros l1 l2 cs sel sz. unfold exportContent; cbn [shapes connectors].
  rewrite !flat_map_app. cbn [flat_map]. now rewrite E.
Qed.

(** The image of the specification's example. *)
Definition alertImage : AnyShape :=
mkShape "img" 200 200 None None None None (Some true) None None None
  (ImageShape "javascript:alert(1)" None None).

Lemma export_drops_denylisted_image_witness :
  payload alertImage = ImageShape "javascript:alert(1)" None None
  /\ denylisted "javascript:alert(1)" = true
  /\ emitShape (fun _ => "0") (fun _ => "none") alertImage = nil.
Proof.
  split; [reflexivity|]. split; [reflexivity|].
  apply (export_drops_denylisted_image (fun _ => "0") (fun _ => "none")
           alertImage "javascript:alert(1)" None None);
    reflexivity.
Defined.

End SvgExport.

(** ** Project files ([exportProject], [loadJSON]) *)

Module Project.
Import History.
Local Open Scope string_scope.

#[local] Set Warnings "-register-all".

(** A value as [JSON.parse] builds it, with [undefined] for what a
    property read finds missing. *)
Inductive JSValue : Type :=
| JUndefined
| JNull
| JBool (b : bool)
| JNumber (q : Q)
| JString (s : string)
| JArray (items : list JSValue)
| JObject (fields : list (string * JSValue)).

(** [v.k] for the property names of a project file. [None] is the
    [TypeError] of reading a property of [null] or [undefined]; any other
    value without the property answers [undefined]. *)
Definition prop (v : JSValue) (k : string) : option JSValue :=
match v with
| JUndefined | JNull => None
| JObject fields =>
    match find (fun kv => String.eqb (fst kv) k) fields with
    | Some kv => Some (snd kv)
    | None => Some JUndefined
    end
| _ => Some JUndefined
end.

(** The same read where the receiver is known not to be [null]. *)
Definition propOf (v : JSValue) (k : string) : JSValue :=
match prop v k with
| Some r => r
| None => JUndefined
end.

Definition truthy (v : JSValue) : bool :=
match v with
| JUndefined | JNull => false
| JBool b => b
| JNumber q => negb (Qeq_bool q 0)
| JString s => negb (String.eqb s "")
| JArray _ | JObject _ => true
end.

(** [v || d]. *)
Definition orElse (v d : JSValue) : JSValue := if truthy v then v else d.

Record CanvasState : Type := mkCanvas
  { shapes : list Scene.AnyShape;
    connectors : list Scene.Connector.t }.

(** The state cells of [App] that a project file holds, and the alerts
    shown so far. *)
Record App : Type := mkApp
  { history : HistoryState CanvasState;
    selectedIds : list string;
    bg : string;
    stageSize : Scene.Size.t;
    showGrid : bool;
    gridSize : Q;
    snapEnabled : bool;
    alerts : list string }.

Definition alert (msg : string) (a : App) : App :=
mkApp (history a) (selectedIds a) (bg a) (stageSize a) (showGrid a)
  (gridSize a) (snapEnabled a) (alerts a ++ [msg])%list.

Definition resetHistory (c : CanvasState) (a : App) : App :=
mkApp (reset c) (selectedIds a) (bg a) (stageSize a) (showGrid a)
  (gridSize a) (snapEnabled a) (alerts a).

Definition setBg (v : string) (a : App) : App :=
mkApp (history a) (selectedIds a) v (stageSize a) (showGrid a)
  (gridSize a) (snapEnabled a) (alerts a).

Definition setStageSize (v : Scene.Size.t) (a : App) : App :=
mkApp (history a) (selectedIds a) (bg a) v (showGrid a)
  (gridSize a) (snapEnabled a) (alerts a).

Definition setShowGrid (v : bool) (a : App) : App :=
mkApp (history a) (selectedIds a) (bg a) (stageSize a) v
  (gridSize a) (snapEnabled a) (alerts a).

Definition setGridSize (v : Q) (a : App) : App :=
mkApp (history a) (selectedIds a) (bg a) (stageSize a) (showGrid a)
  v (snapEnabled a) (alerts a).

Definition setSnapEnabled (v : bool) (a : App) : App :=
mkApp (history a) (selectedIds a) (bg a) (stageSize a) (showGrid a)
  (gridSize a) v (alerts a).

Section Load.

(** [JSON.parse]: the parsed value, or the message of the [SyntaxError]. *)
Variable parse : string -> JSValue + string.

(** The message of the [TypeError] raised by reading a property of [null]. *)
Variable typeErrorMessage : string.

(** The unchecked casts of parsed values to the types of the state cells. *)
Variable asShapes : list JSValue -> list Scene.AnyShape.
Variable asConnectors : JSValue -> list Scene.Connector.t.
Variable asString : JSValue -> string.
Variable asSize : JSValue -> Scene.Size.t.
Variable asNumber : JSValue -> Q.

(** The [reader.onload] handler of [loadJSON], on the text of the file. *)
Definition loadJSON (text : string) (a : App) : App :=
match parse text with
| inr message => alert ("Could not load JSON: " ++ message) a
| inl parsed =>
    match prop parsed "__shapes" with
    | None => alert ("Could not load JSON: " ++ typeErrorMessage) a
    | Some (JArray items) =>
        let a1 :=
          resetHistory
            (mkCanvas (asShapes items)
               (asConnectors
                  (orElse (propOf parsed "__connectors") (JArray []))))
            a in
        let a2 :=
          setBg (asString (orElse (propOf parsed "__bg") (JString "#ffffff")))
            a1 in
        let a3 :=
          setStageSize
            (asSize
               (orElse (propOf parsed "__size")
                  (JObject [("width", JNumber 1200); ("height", JNumber 800)])))
            a2 in
        let grid := propOf parsed "__grid" in
        if truthy grid then
          setSnapEnabled (truthy (propOf grid "snapEnabled"))
            (setGridSize
               (asNumber (orElse (propOf grid "gridSize") (JNumber 20)))
               (setShowGrid (truthy (propOf grid "showGrid")) a3))
        else a3
    | Some _ => alert "This JSON isn't a saved project from this app." a
    end
end.

(** The file's [__shapes] field is there and is an array. *)
Definition shapesIsArray (text : string) : bool :=
match parse text with
| inl parsed =>
    match prop parsed "__shapes" with
    | Some (JArray _) => true
    | _ => false
    end
| inr _ => false
end.

(** C8. A file whose [__shapes] field is not an array is answered with an
    alert and nothing else: shapes, connectors and both history stacks,
    the selection, background, canvas size and grid settings are what
    they were. *)
Theorem loadJSON_rejects (text : string) (a : App) :
  shapesIsArray text = false ->
  (exists msg, alerts (loadJSON text a) = (alerts a ++ [msg])%list)
  /\ history (loadJSON text a) = history a
  /\ selectedIds (loadJSON text a) = selectedIds a
  /\ bg (loadJSON text a) = bg a
  /\ stageSize (loadJSON text a) = stageSize a
  /\ showGrid (loadJSON text a) = showGrid a
  /\ gridSize (loadJSON text a) = gridSize a
  /\ snapEnabled (loadJSON text a) = snapEnabled a.
Proof.
  unfold shapesIsArray, loadJSON. intros H.
  destruct (parse text) as [parsed|message].
  - destruct (prop parsed "__shapes") as [[ | | | | |items| ]|];
      try discriminate H; (split; [eexists; reflexivity|repeat split]).
  - split; [eexists; reflexivity|repeat split].
Qed.

(** A file whose [__shapes] field is an array is loaded: no alert, and the
    history is reset to the file's canvas. *)
Lemma loadJSON_accepts (text : string) (a : App) :
  shapesIsArray text = true ->
  alerts (loadJSON text a) = alerts a
  /\ past (history (loadJSON text a)) = []%list
  /\ future (history (loadJSON text a)) = []%list.
Proof.
  unfold shapesIsArray, loadJSON. intros H.
  destruct (parse text) as [parsed|message]; [|discriminate H].
  destruct (prop parsed "__shapes") as [[ | | | | |items| ]|];
    try discriminate H.
  cbv zeta. destruct (truthy (propOf parsed "__grid")); repeat split.
Qed.

End Load.

(** The state of a freshly opened editor. *)
Definition initialApp : App :=
mkApp (reset (mkCanvas [] [])) [] "#ffffff" (Scene.Size.mk 1200 800)
  true 20 true [].

(** A parser standing for one file, whose [__shapes] is a number. *)
Definition parseBadShapes (_ : string) : JSValue + string :=
inl (JObject [("__version", JNumber 3); ("__shapes", JNumber 7)]).

Lemma loadJSON_rejects_witness :
  shapesIsArray parseBadShapes "project.figure.json" = false
  /\ alerts
       (loadJSON parseBadShapes "TypeError" (fun _ => []%list)
          (fun _ => []%list) (fun _ => "") (fun _ => Scene.Size.mk 0 0)
          (fun _ => 0%Q) "project.figure.json" initialApp)
     = ["This JSON isn't a saved project from this app."]%list
  /\ history
       (loadJSON parseBadShapes "TypeError" (fun _ => []%list)
          (fun _ => []%list) (fun _ => "") (fun _ => Scene.Size.mk 0 0)
          (fun _ => 0%Q) "project.figure.json" initialApp)
     = history initialApp.
Proof.
  split; [reflexivity|]. split; [reflexivity|].
  apply (loadJSON_rejects parseBadShapes "TypeError" (fun _ => []%list)
           (fun _ => []%list) (fun _ => "") (fun _ => Scene.Size.mk 0 0)
           (fun _ => 0%Q) "project.figure.json" initialApp).
  reflexivity.
Defined.

(** [JSON.parse("null")] is [null], and reading [__shapes] of it throws:
    the [catch] branch alerts and nothing is changed. *)
Example loadJSON_null :
  loadJSON (fun _ => inl JNull) "TypeError" (fun _ => []%list)
    (fun _ => []%list) (fun _ => "") (fun _ => Scene.Size.mk 0 0)
    (fun _ => 0%Q) "null" initialApp
  = alert "Could not load JSON: TypeError" initialApp.
Proof. reflexivity. Qed.

End Project.

(** ** Laws of the history hook *)

Module HistoryLaws.
Import History.

Section Laws.
Context {T : Type}.

(** The number of documents a history holds besides [present]. *)
Definition stored (h : HistoryState T) : nat :=
(List.length (past h) + List.length (future h))%nat.

Lemma redo_timeline (h : HistoryState T) : timeline (redo h) = timeline h.
Proof.
  destruct h as [p c [|f fs]]; unfold redo, timeline; simpl; [reflexivity|].
  now rewrite <- app_assoc.
Qed.

Lemma undo_redo (h : HistoryState T) :
  future h <> [] -> undo (redo h) = h.
Proof.
  intros Hne. unfold redo. destruct h as [p c f]; simpl in *.
  destruct f as [|x f]; [contradiction|].
  unfold undo; simpl. now rewrite pop_snoc.
Qed.

Lemma canUndo_true (h : HistoryState T) : canUndo h = true <-> past h <> [].
Proof.
  unfold canUndo. destruct (past h); simpl; split;
    first [discriminate | reflexivity | intros H; now elim H].
Qed.

Lemma canRedo_true (h : HistoryState T) : canRedo h = true <-> future h <> [].
Proof.
  unfold canRedo. destruct (future h); simpl; split;
    first [discriminate | reflexivity | intros H; now elim H].
Qed.

(** X1. Where there is something to undo, [redo] takes back an [undo];
    where there is something to redo, [undo] takes back a [redo]. *)
Theorem undo_redo_inverse (h : HistoryState T) :
  (canUndo h = true -> redo (undo h) = h)
  /\ (canRedo h = true -> undo (redo h) = h).
Proof.
  split; intros H.
  - apply redo_undo. now apply canUndo_true.
  - apply undo_redo. now apply canRedo_true.
Qed.

(** X2. However often [undo] and [redo] are called, the line of documents
    from the oldest in [past] to the newest in [future] stays the same:
    none is dropped, repeated or reordered. *)
Theorem undo_redo_keep_timeline (k : nat) (h : HistoryState T) :
  timeline (Nat.iter k undo h) = timeline h
  /\ timeline (Nat.iter k redo h) = timeline h.
Proof.
  split; [apply undo_iter_timeline|].
  induction k as [|k IH]; simpl; [reflexivity|].
  now rewrite redo_timeline.
Qed.

(** X3. A history that stores at most [MAX_HISTORY_LENGTH] documents
    besides the present one keeps doing so under every operation of the
    hook. *)
Theorem stored_bounded (h : HistoryState T) (x : T) (skip : bool) :
  (stored h <= MAX_HISTORY_LENGTH)%nat ->
  (stored (setState h x skip) <= MAX_HISTORY_LENGTH)%nat
  /\ (stored (undo h) <= MAX_HISTORY_LENGTH)%nat
  /\ (stored (redo h) <= MAX_HISTORY_LENGTH)%nat
  /\ (stored (clearHistory h) <= MAX_HISTORY_LENGTH)%nat
  /\ (stored (reset x) <= MAX_HISTORY_LENGTH)%nat.
Proof.
  unfold stored. intros Hb. repeat split.
  - destruct skip; [exact Hb|].
    unfold setState; cbn [past future List.length].
    destruct (Nat.ltb_spec MAX_HISTORY_LENGTH
                (List.length (past h ++ [present h]))) as [H|H];
      [rewrite length_tl|]; rewrite length_app in *; simpl in *; lia.
  - unfold undo. destruct (pop (past h)) as [[r z]|] eqn:E; [|exact Hb].
    apply pop_length in E. rewrite E, length_app in Hb. simpl in *. lia.
  - unfold redo. destruct (future h) as [|f fs] eqn:E; [rewrite E; exact Hb|].
    simpl in *. rewrite length_app; simpl. lia.
  - unfold MAX_HISTORY_LENGTH; simpl; lia.
  - unfold MAX_HISTORY_LENGTH; simpl; lia.
Qed.

(** A drag gesture: one recorded update, then updates that skip history. *)
Definition gesture (h : HistoryState T) (x : T) (ys : list T)
  : HistoryState T :=
fold_left (fun cur y => setState cur y true) ys (setState h x false).

Lemma recorded_past (h : HistoryState T) (x : T) :
  exists r, past (setState h x false) = r ++ [present h].
Proof.
  unfold setState; cbn [past].
  destruct (Nat.ltb_spec MAX_HISTORY_LENGTH
              (List.length (past h ++ [present h]))) as [H|H];
    [|now exists (past h)].
  destruct (past h) as [|p ps]; [|now exists ps].
  unfold MAX_HISTORY_LENGTH in H; simpl in H; lia.
Qed.

Lemma skips_past_future (ys : list T) :
  forall h : HistoryState T,
    past (fold_left (fun cur y => setState cur y true) ys h) = past h
    /\ future (fold_left (fun cur y => setState cur y true) ys h) = future h
    /\ present (fold_left (fun cur y => setState cur y true) ys h)
       = last ys (present h).
Proof.
  induction ys as [|y ys IH]; intros h; [repeat split|].
  cbn [fold_left]. destruct (IH (setState h y true)) as (Hp & Hf & Hc).
  rewrite Hp, Hf, Hc. repeat split.
  destruct ys as [|z ys]; [reflexivity|].
  change (last (y :: z :: ys) (present h)) with (last (z :: ys) (present h)).
  apply last_cons_default.
Qed.

(** X4. One [undo] takes back a whole gesture: after a recorded update and
    any number of history-skipping ones, [undo] shows the document from
    before the gesture and keeps the gesture's final document as the one
    next [redo] brings back. *)
Theorem undo_takes_back_gesture (h : HistoryState T) (x : T) (ys : list T) :
  present (undo (gesture h x ys)) = present h
  /\ future (undo (gesture h x ys)) = [last ys x]
  /\ present (redo (undo (gesture h x ys))) = last ys x.
Proof.
  unfold gesture.
  destruct (skips_past_future ys (setState h x false)) as (Hp & Hf & Hc).
  destruct (recorded_past h x) as (r & Ep).
  set (g := fold_left _ ys _) in *.
  assert (U : undo g = mkHistory r (present h) [last ys x]).
  { unfold undo. rewrite Hp, Ep, pop_snoc, Hc, Hf. reflexivity. }
  rewrite U. repeat split.
Qed.

(** X5. [undo] leaves the history as it is exactly when [canUndo] is
    false, and [redo] exactly when [canRedo] is false. *)
Theorem noop_iff_cannot (h : HistoryState T) :
  (undo h = h <-> canUndo h = false)
  /\ (redo h = h <-> canRedo h = false).
Proof.
  split; split.
  - intros E. destruct (canUndo h) eqn:C; [|reflexivity].
    assert (L := undo_past_length h). rewrite E in L.
    unfold canUndo in C. apply Nat.ltb_lt in C. lia.
  - intros C. unfold canUndo in C. unfold undo.
    destruct (past h) as [|p ps]; [reflexivity|discriminate C].
  - intros E. destruct (canRedo h) eqn:C; [|reflexivity].
    unfold redo in E. unfold canRedo in C.
    destruct (future h) as [|f fs] eqn:F; [discriminate C|].
    apply (f_equal (fun s => List.length (future s))) in E.
    rewrite F in E. simpl in E. lia.
  - intros C. unfold canRedo in C. unfold redo.
    destruct (future h) as [|f fs]; [reflexivity|discriminate C].
Qed.

End Laws.

Lemma undo_redo_inverse_witness :
  canUndo (mkHistory [1; 2] 3 [4])%nat = true
  /\ canRedo (mkHistory [1; 2] 3 [4])%nat = true
  /\ redo (undo (mkHistory [1; 2] 3 [4])) = mkHistory [1; 2] 3 [4]%nat
  /\ undo (redo (mkHistory [1; 2] 3 [4])) = mkHistory [1; 2] 3 [4]%nat.
Proof.
  split; [reflexivity|]. split; [reflexivity|]. split.
  - apply (proj1 (undo_redo_inverse (mkHistory [1; 2] 3 [4])%nat)).
    reflexivity.
  - apply (proj2 (undo_redo_inverse (mkHistory [1; 2] 3 [4])%nat)).
    reflexivity.
Defined.

Lemma stored_bounded_witness :
  (stored (mkHistory [1; 2] 3 [4])%nat <= MAX_HISTORY_LENGTH)%nat
  /\ (stored (setState (mkHistory [1; 2] 3 [4])%nat 5%nat false)
      <= MAX_HISTORY_LENGTH)%nat.
Proof.
  assert (H : (stored (mkHistory [1; 2] 3 [4])%nat <= MAX_HISTORY_LENGTH)%nat)
    by (unfold MAX_HISTORY_LENGTH, stored; simpl; lia).
  split; [exact H|].
  exact (proj1 (stored_bounded (mkHistory [1; 2] 3 [4])%nat 5%nat false H)).
Defined.

End HistoryLaws.

From Stdlib Require Import Permutation Qround Lqa.

(** ** The other editing handlers of [App.tsx] *)

Module Editing.
Import History Scene App.
Local Open Scope Q_scope.

(** *** Deleting, z-order *)




(** [copy.splice(idx, 1)] and [copy.splice(idx, 0, it)]. *)
Definition removeAt {A : Type} (idx : nat) (l : list A) : list A :=
firstn idx l ++ skipn (S idx) l.

Definition insertAt {A : Type} (idx : nat) (it : A) (l : list A) : list A :=
firstn idx l ++ it :: skipn idx l.

(** One round of the [forEach] of [bringForward]. *)
Definition stepForward (copy : list AnyShape) (i : string) : list AnyShape :=
match findIndex (fun sh => String.eqb (id sh) i) copy with
| Some idx =>
    if (idx <? List.length copy - 1)%nat then
      match nth_error copy idx with
      | Some it => insertAt (idx + 1) it (removeAt idx copy)
      | None => copy
      end
    else copy
| None => copy
end.

(** One round of the [forEach] of [sendBackward]. *)
Definition stepBackward (copy : list AnyShape) (i : string) : list AnyShape :=
match findIndex (fun sh => String.eqb (id sh) i) copy with
| Some idx =>
    if (0 <? idx)%nat then
      match nth_error copy idx with
      | Some it => insertAt (idx - 1) it (removeAt idx copy)
      | None => copy
      end
    else copy
| None => copy
end.

(** The updaters of the four z-order handlers. *)
Definition forwardUpdate (selectedIds : list string) (s : list AnyShape)
  : list AnyShape :=
fold_left stepForward selectedIds s.

Definition backwardUpdate (selectedIds : list string) (s : list AnyShape)
  : list AnyShape :=
fold_left stepBackward selectedIds s.

Definition toFrontUpdate (selectedIds : list string) (s : list AnyShape)
  : list AnyShape :=
let selected := filter (fun sh => includes selectedIds (id sh)) s in
let others := filter (fun sh => negb (includes selectedIds (id sh))) s in
others ++ selected.

Definition toBackUpdate (selectedIds : list string) (s : list AnyShape)
  : list AnyShape :=
let selected := filter (fun sh => includes selectedIds (id sh)) s in
let others := filter (fun sh => negb (includes selectedIds (id sh))) s in
selected ++ others.

Definition bringForward (a : State) : State :=
match selectedIds a with
| [] => a
| _ => setShapes (forwardUpdate (selectedIds a)) false false a
end.

Definition sendBackward (a : State) : State :=
match selectedIds a with
| [] => a
| _ => setShapes (backwardUpdate (selectedIds a)) false false a
end.

Definition bringToFront (a : State) : State :=
match selectedIds a with
| [] => a
| _ => setShapes (toFrontUpdate (selectedIds a)) false false a
end.

Definition sendToBack (a : State) : State :=
match selectedIds a with
| [] => a
| _ => setShapes (toBackUpdate (selectedIds a)) false false a
end.

(** *** Connecting, nudging, duplicating, marquee selection *)

(** [connectSelected], with the id that [uuidv4] hands out. *)
Definition connectSelected (newId : string) (a : State) : Outcome :=
match selectedIds a with
| [i; j] =>
    match shapes a with
    | None => TypeError
    | Some current =>
        match findShape i current, findShape j current with
        | Some from, Some to =>
            Done (setConnectors (fun cs =>
                    cs ++ [Connector.mk newId i j (routeConnector from to)
                             (Some "#0f172a"%string) (Some 2)]) false a)
        | _, _ => Done a
        end
    end
| _ => Done a
end.

Inductive ArrowKey : Set := ArrowUp | ArrowDown | ArrowLeft | ArrowRight.

(** The updater of the arrow-key branch of the [keydown] handler; called,
    it would also refresh the connectors. *)
Definition nudgeUpdate (key : ArrowKey) (shiftKey : bool) (gridSize : Q)
  (selectedIds : list string) (s : list AnyShape) : list AnyShape :=
let step := if shiftKey then gridSize else 2 in
let dx :=
  match key with ArrowLeft => - step | ArrowRight => step | _ => 0 end in
let dy :=
  match key with ArrowUp => - step | ArrowDown => step | _ => 0 end in
map (fun sh =>
  if includes selectedIds (id sh)
  then set_y (y sh + dy) (set_x (x sh + dx) sh) else sh) s.

Definition nudge (key : ArrowKey) (shiftKey : bool) (gridSize : Q)
  (a : State) : State :=
match selectedIds a with
| [] => a
| _ =>
  setShapes (nudgeUpdate key shiftKey gridSize (selectedIds a)) true false a
end.

(** The copy the Ctrl/Cmd+D handler makes of [orig]. *)
Definition copyOf (newId : string) (orig : AnyShape) : AnyShape :=
mkShape newId (orElse (Some (x orig)) 0 + 20) (orElse (Some (y orig)) 0 + 20)
  (rotation orig) (fill orig) (stroke orig) (strokeWidth orig)
  (draggable orig) (opacity orig) (name orig) (groupId orig) (payload orig).

(** One round of its loop over [selectedIds]; [uuid k] is the id the
    [k]-th call of [uuidv4] hands out. *)
Definition copyStep (uuid : nat -> string) (base : list AnyShape)
  (copies : list AnyShape) (i : string) : list AnyShape :=
match findIndex (fun sh => String.eqb (id sh) i) base with
| Some idx =>
    match nth_error base idx with
    | Some orig => copies ++ [copyOf (uuid (List.length copies)) orig]
    | None => copies
    end
| None => copies
end.

(** The updater of the Ctrl/Cmd+D branch; called, it would also refresh
    the connectors. *)
Definition duplicateUpdate (uuid : nat -> string) (selectedIds : list string)
  (s : list AnyShape) : list AnyShape :=
s ++ fold_left (copyStep uuid s) selectedIds [].

Definition duplicateSelected (uuid : nat -> string) (a : State) : State :=
match selectedIds a with
| [] => a
| _ => setShapes (duplicateUpdate uuid (selectedIds a)) true false a
end.

(** The test of [onMouseUp]: the shape's box lies within the marquee. *)
Definition insideMarquee (selRect : BBox.t) (s : AnyShape) : bool :=
let b := getBBox s in
Qle_bool (BBox.x selRect) (BBox.x b)
&& Qle_bool (BBox.y selRect) (BBox.y b)
&& Qle_bool (BBox.x b + BBox.w b) (BBox.x selRect + BBox.w selRect)
&& Qle_bool (BBox.y b + BBox.h b) (BBox.y selRect + BBox.h selRect).

(** The [onMouseUp] handler of the stage, for a marquee in progress. *)
Definition marqueeSelect (selRect : BBox.t) (a : State) : Outcome :=
match shapes a with
| None => TypeError
| Some current =>
    Done (setSelectedIds (map id (filter (insideMarquee selRect) current)) a)
end.

(** *** What a stored updater does to the editor *)

(** X24. Once [setShapes] or [setConnectors] has run, the present
    document is the updater it was handed: [canvasState.shapes] and
    [canvasState.connectors] read [undefined], and the handlers that call
    a method of the shape list ([distribute], marquee selection, and
    [groupSelected], [ungroupSelected] and [connectSelected] when the
    selection lets them get that far) throw. [undo] makes the document
    from before the call the present one again. *)
Theorem stored_updater_blinds (a : State)
    (u : list AnyShape -> list AnyShape) (r : bool)
    (uc : list Connector.t -> list Connector.t) (axis : Axis)
    (selRect : BBox.t) (gid newId : string) :
  (forall a', a' = setShapes u r false a \/ a' = setConnectors uc false a ->
     shapes a' = None /\ connectors a' = None
     /\ selectedIds a' = selectedIds a
     /\ distribute axis a' = TypeError
     /\ marqueeSelect selRect a' = TypeError
     /\ ((2 <= List.length (selectedIds a))%nat ->
         groupSelected gid a' = TypeError)
     /\ (List.length (selectedIds a) = 1%nat ->
         ungroupSelected a' = TypeError)
     /\ (List.length (selectedIds a) = 2%nat ->
         connectSelected newId a' = TypeError)
     /\ present (undo (history a')) = canvasState a)
  /\ canvasState (setShapes u r false a) = ShapesUpdater u r
  /\ canvasState (setConnectors uc false a) = ConnectorsUpdater uc.
Proof.
  split; [|split; [apply setShapes_reads|apply setConnectors_reads]].
  intros a' Ha'.
  assert (Hs : shapes a' = None /\ connectors a' = None
               /\ selectedIds a' = selectedIds a).
  { destruct Ha' as [-> | ->];
      [destruct (setShapes_reads u r false a) as (_ & ? & ? & ?)
      |destruct (setConnectors_reads uc false a) as (_ & ? & ? & ?)]; auto. }
  destruct Hs as (Hsh & Hco & Hsel).
  split; [exact Hsh|]. split; [exact Hco|]. split; [exact Hsel|].
  split; [unfold distribute; now rewrite Hsh|].
  split; [unfold marqueeSelect; now rewrite Hsh|].
  split; [|split; [|split]].
  - intros H2. unfold groupSelected. rewrite Hsel, Hsh.
    destruct (Nat.ltb_spec (List.length (selectedIds a)) 2); [lia|reflexivity].
  - intros H1. unfold ungroupSelected. rewrite Hsel, Hsh.
    destruct (selectedIds a) as [|i [|j sel]]; try discriminate H1.
    reflexivity.
  - intros H2. unfold connectSelected. rewrite Hsel, Hsh.
    destruct (selectedIds a) as [|i [|j [|k sel]]]; try discriminate H2.
    reflexivity.
  - unfold canvasState.
    destruct Ha' as [-> | ->]; unfold setShapes, setConnectors; cbn [history];
      destruct (HistoryLaws.recorded_past (history a)
                  (ShapesUpdater u r)) as (p1 & E1);
      destruct (HistoryLaws.recorded_past (history a)
                  (ConnectorsUpdater uc)) as (p2 & E2);
      unfold undo; rewrite ?E1, ?E2, pop_snoc; reflexivity.
Qed.

Lemma stored_updater_blinds_witness :
  (2 <= List.length (selectedIds (loaded flatShapes [] ["a"; "b"]%string)))%nat
  /\ groupSelected "g1"
       (setShapes (alignUpdate mode_left ["a"; "b"]%string (Size.mk 1200 800))
          true false (loaded flatShapes [] ["a"; "b"]%string))
     = TypeError.
Proof.
  assert (H2 : (2 <= List.length
                  (selectedIds (loaded flatShapes [] ["a"; "b"]%string)))%nat)
    by (simpl; lia).
  split; [exact H2|].
  refine (proj1 (proj2 (proj2 (proj2 (proj2 (proj2
    (proj1 (stored_updater_blinds (loaded flatShapes [] ["a"; "b"]%string)
       (alignUpdate mode_left ["a"; "b"]%string (Size.mk 1200 800)) true
       (fun cs => cs) axis_h (BBox.mk 0 0 1 1) "g1" "k1") _ _)))))) H2).
  now left.
Defined.

(** *** Z-order updaters *)

Lemma filter_split_perm {A : Type} (p : A -> bool) (l : list A) :
  Permutation l (filter (fun a => negb (p a)) l ++ filter p l).
Proof.
  induction l as [|a l IH]; simpl; [constructor|].
  destruct (p a); simpl.
  - now apply Permutation_cons_app.
  - now constructor.
Qed.

Lemma skipn_nth_error {A : Type} (l : list A) :
  forall idx it, nth_error l idx = Some it ->
                 skipn idx l = it :: skipn (S idx) l.
Proof.
  induction l as [|a l IH]; intros [|idx] it H; simpl in *; try discriminate.
  - now injection H as ->.
  - now apply IH.
Qed.

Lemma move_perm {A : Type} (l : list A) (idx n : nat) (it : A) :
  nth_error l idx = Some it ->
  Permutation l (insertAt n it (removeAt idx l)).
Proof.
  intros H. unfold insertAt.
  apply Permutation_trans with (it :: removeAt idx l).
  - unfold removeAt. rewrite <- (firstn_skipn idx l) at 1.
    rewrite (skipn_nth_error l idx it H).
    symmetry. apply Permutation_middle.
  - rewrite <- (firstn_skipn n (removeAt idx l)) at 1.
    apply Permutation_middle.
Qed.

Lemma stepForward_perm (copy : list AnyShape) (i : string) :
  Permutation copy (stepForward copy i).
Proof.
  unfold stepForward. destruct (findIndex _ copy) as [idx|]; [|reflexivity].
  destruct (idx <? _)%nat; [|reflexivity].
  destruct (nth_error copy idx) as [it|] eqn:E; [|reflexivity].
  now apply move_perm.
Qed.

Lemma stepBackward_perm (copy : list AnyShape) (i : string) :
  Permutation copy (stepBackward copy i).
Proof.
  unfold stepBackward. destruct (findIndex _ copy) as [idx|]; [|reflexivity].
  destruct (0 <? idx)%nat; [|reflexivity].
  destruct (nth_error copy idx) as [it|] eqn:E; [|reflexivity].
  now apply move_perm.
Qed.

Lemma fold_step_perm (step : list AnyShape -> string -> list AnyShape) :
  (forall copy i, Permutation copy (step copy i)) ->
  forall ids copy, Permutation copy (fold_left step ids copy).
Proof.
  intros Hstep ids. induction ids as [|i ids IH]; intros copy; simpl.
  - reflexivity.
  - eapply Permutation_trans; [apply (Hstep copy i)|apply IH].
Qed.

(** X6. The updater each of the four z-order handlers hands to
    [setShapes] only reorders: whatever shape list it is given, what it
    returns is a permutation of it (nothing lost, nothing doubled). With a
    non-empty selection the handler stores that updater as the present
    document and leaves the selection as it is. *)
Theorem zorder_updates_permute (a : State) (l : list AnyShape) :
  selectedIds a <> [] ->
  (Permutation l (forwardUpdate (selectedIds a) l)
   /\ canvasState (bringForward a)
      = ShapesUpdater (forwardUpdate (selectedIds a)) false
   /\ selectedIds (bringForward a) = selectedIds a)
  /\ (Permutation l (backwardUpdate (selectedIds a) l)
      /\ canvasState (sendBackward a)
         = ShapesUpdater (backwardUpdate (selectedIds a)) false
      /\ selectedIds (sendBackward a) = selectedIds a)
  /\ (Permutation l (toFrontUpdate (selectedIds a) l)
      /\ canvasState (bringToFront a)
         = ShapesUpdater (toFrontUpdate (selectedIds a)) false
      /\ selectedIds (bringToFront a) = selectedIds a)
  /\ (Permutation l (toBackUpdate (selectedIds a) l)
      /\ canvasState (sendToBack a)
         = ShapesUpdater (toBackUpdate (selectedIds a)) false
      /\ selectedIds (sendToBack a) = selectedIds a).
Proof.
  intros Hsel.
  unfold bringForward, sendBackward, bringToFront, sendToBack.
  destruct (selectedIds a) as [|i sel] eqn:E; [contradiction|].
  repeat split;
    try (rewrite <- E; apply setShapes_reads);
    try (destruct (setShapes_reads (forwardUpdate (i :: sel)) false false a)
           as (_ & _ & _ & ->); exact E);
    try (destruct (setShapes_reads (backwardUpdate (i :: sel)) false false a)
           as (_ & _ & _ & ->); exact E);
    try (destruct (setShapes_reads (toFrontUpdate (i :: sel)) false false a)
           as (_ & _ & _ & ->); exact E);
    try (destruct (setShapes_reads (toBackUpdate (i :: sel)) false false a)
           as (_ & _ & _ & ->); exact E).
  - apply fold_step_perm, stepForward_perm.
  - apply fold_step_perm, stepBackward_perm.
  - apply filter_split_perm.
  - eapply Permutation_trans; [apply filter_split_perm|].
    apply Permutation_app_comm.
Qed.

Lemma zorder_updates_permute_witness :
  selectedIds (loaded flatShapes [] ["a"%string]) <> []
  /\ Permutation flatShapes (forwardUpdate ["a"%string] flatShapes)
  /\ map id (forwardUpdate ["a"%string] flatShapes) = ["b"; "a"]%string.
Proof.
  assert (H : selectedIds (loaded flatShapes [] ["a"%string]) <> [])
    by discriminate.
  split; [exact H|]. split; [|reflexivity].
  exact (proj1 (proj1 (zorder_updates_permute
                         (loaded flatShapes [] ["a"%string]) flatShapes H))).
Defined.

(** *** Deleting keeps connectors attached *)

(** Both ends of the connector are ids of shapes in [l]. *)
Definition resolves (l : list AnyShape) (c : Connector.t) : bool :=
match findShape (Connector.fromId c) l, findShape (Connector.toId c) l with
| Some _, Some _ => true
| _, _ => false
end.






(** *** The connectors updater *)

(** A connector whose two ends are found in [l] carries the route between
    them. *)
Definition routed (l : list AnyShape) (c : Connector.t) : Prop :=
forall from to,
  findShape (Connector.fromId c) l = Some from ->
  findShape (Connector.toId c) l = Some to ->
  Connector.points c = routeConnector from to.

Lemma refreshOne_ends (l : list AnyShape) (c : Connector.t) :
  Connector.id (refreshOne l c) = Connector.id c
  /\ Connector.fromId (refreshOne l c) = Connector.fromId c
  /\ Connector.toId (refreshOne l c) = Connector.toId c
  /\ Connector.stroke (refreshOne l c) = Connector.stroke c
  /\ Connector.strokeWidth (refreshOne l c) = Connector.strokeWidth c.
Proof.
  unfold refreshOne.
  destruct (findShape (Connector.fromId c) l), (findShape (Connector.toId c) l);
    repeat split.
Qed.

Lemma refreshOne_routed (l : list AnyShape) (c : Connector.t) :
  routed l (refreshOne l c).
Proof.
  intros from to. destruct (refreshOne_ends l c) as (_ & -> & -> & _).
  intros Hf Ht. unfold refreshOne. now rewrite Hf, Ht.
Qed.

(** X9. The updater [refreshConnectors] hands to [setConnectors] keeps
    every connector, its id, its two ends and its stroke; gives each
    connector whose ends are both found among the shapes the route
    between them; and returns a connector with a missing end as it was,
    stale points included. [refreshConnectors] stores that updater as the
    present document. *)
Theorem refreshUpdate_spec (l : list AnyShape) (cs : list Connector.t)
    (a : State) :
  map Connector.id (refreshUpdate l cs) = map Connector.id cs
  /\ map Connector.fromId (refreshUpdate l cs) = map Connector.fromId cs
  /\ map Connector.toId (refreshUpdate l cs) = map Connector.toId cs
  /\ map Connector.stroke (refreshUpdate l cs) = map Connector.stroke cs
  /\ Forall (routed l) (refreshUpdate l cs)
  /\ Forall2 (fun c c' => resolves l c = false -> c' = c)
       cs (refreshUpdate l cs)
  /\ canvasState (refreshConnectors l a) = ConnectorsUpdater (refreshUpdate l).
Proof.
  unfold refreshUpdate. rewrite !map_map.
  split; [apply map_ext; intros c; apply refreshOne_ends|].
  split; [apply map_ext; intros c; apply refreshOne_ends|].
  split; [apply map_ext; intros c; apply refreshOne_ends|].
  split; [apply map_ext; intros c; apply refreshOne_ends|].
  split; [|split].
  - apply Forall_forall. intros c Hin.
    apply in_map_iff in Hin as (c0 & <- & _). apply refreshOne_routed.
  - induction cs as [|c cs IH]; simpl; constructor; [|exact IH].
    unfold resolves, refreshOne.
    destruct (findShape (Connector.fromId c) l),
             (findShape (Connector.toId c) l); intros H;
      first [discriminate H | reflexivity].
  - unfold refreshConnectors. apply setConnectors_reads.
Qed.

(** *** What the layout updaters leave alone *)

Lemma sort_insert_perm {A : Type} (cmp : A -> A -> Q) (a : A) (l : list A) :
  Permutation (a :: l) (sort_insert cmp a l).
Proof.
  induction l as [|b l IH]; simpl; [reflexivity|].
  destruct (Qgtb (cmp a b) 0); [|reflexivity].
  eapply Permutation_trans; [apply perm_swap|]. now constructor.
Qed.

Lemma sort_perm {A : Type} (cmp : A -> A -> Q) (l : list A) :
  Permutation l (sort cmp l).
Proof.
  induction l as [|a l IH]; simpl; [constructor|].
  eapply Permutation_trans; [|apply sort_insert_perm]. now constructor.
Qed.

Lemma findIndex_Some {A : Type} (p : A -> bool) (l : list A) :
  forall n, findIndex p l = Some n ->
            exists a, nth_error l n = Some a /\ p a = true.
Proof.
  induction l as [|a l IH]; intros n; simpl; [discriminate|].
  destruct (p a) eqn:E.
  - intros [= <-]. now exists a.
  - destruct (findIndex p l) as [m|]; [|discriminate].
    intros [= <-]. now apply IH.
Qed.

Lemma Forall2_map_self {A : Type} (R : A -> A -> Prop) (f : A -> A)
    (l : list A) :
  (forall a, R a (f a)) -> Forall2 R l (map f l).
Proof. intros H. induction l; simpl; constructor; auto. Qed.

(** What [distribute] leaves when it returns with a shape list at hand:
    the state as it was, or the updater built on the sorted boxes of the
    selected shapes. *)
Lemma distribute_done (axis : Axis) (a a1 : State) (current : list AnyShape) :
  shapes a = Some current ->
  distribute axis a = Done a1 ->
  a1 = a
  \/ exists sorted first gaps,
       (forall b, In b sorted -> isSelected a (fst b) = true)
       /\ a1 = setShapes (distributeUpdate axis sorted first gaps) true false a.
Proof.
  intros Hs. unfold distribute. rewrite Hs.
  destruct (List.length (filter (isSelected a) current) <? 3)%nat;
    [intros [= <-]; now left|].
  cbv zeta.
  set (boxes := map (fun s => (s, getBBox s)) (filter (isSelected a) current)).
  destruct (sort (fun a b : Box => near axis a - near axis b) boxes)
    as [|first sorted] eqn:E; [intros [= <-]; now left|].
  intros [= <-]. right. do 3 eexists. split; [|reflexivity].
  intros b Hb. rewrite <- E in Hb.
  apply (Permutation_in _ (Permutation_sym (sort_perm _ boxes))) in Hb.
  unfold boxes in Hb. apply in_map_iff in Hb as (s0 & <- & Hs0).
  now apply filter_In in Hs0.
Qed.

Lemma stored_not_value (a : State) (l : list AnyShape)
    (u : list AnyShape -> list AnyShape) (r : bool) :
  shapes a = Some l -> canvasState a <> ShapesUpdater u r.
Proof.
  unfold shapes. intros H E. rewrite E in H. discriminate H.
Qed.

(** X11. The updaters that [alignSelected], the arrow-key nudge and
    [distribute] hand to [setShapes] touch selected shapes only: whatever
    shape list they are given, a shape whose id is not in the selection
    comes back at the same place in the list, exactly as it was. *)
Theorem layout_updates_leave_unselected (a : State) (mode : AlignMode)
    (axis : Axis) (key : ArrowKey) (shiftKey : bool) (gridSize : Q)
    (l : list AnyShape) :
  Forall2 (fun s t => isSelected a s = false -> t = s)
    l (alignUpdate mode (selectedIds a) (stageSize a) l)
  /\ Forall2 (fun s t => isSelected a s = false -> t = s)
       l (nudgeUpdate key shiftKey gridSize (selectedIds a) l)
  /\ (forall current a1 u r,
        shapes a = Some current ->
        distribute axis a = Done a1 ->
        canvasState a1 = ShapesUpdater u r ->
        Forall2 (fun s t => isSelected a s = false -> t = s) l (u l)).
Proof.
  split; [|split].
  - apply Forall2_map_self. intros sh Hn. unfold isSelected in Hn.
    now rewrite Hn.
  - apply Forall2_map_self. intros sh Hn. unfold isSelected in Hn.
    now rewrite Hn.
  - intros current a1 u r Hs Hd Hc.
    destruct (distribute_done axis a a1 current Hs Hd)
      as [-> | (sorted & first & gaps & Hsorted & ->)].
    + now elim (stored_not_value a current u r Hs).
    + destruct (setShapes_reads (distributeUpdate axis sorted first gaps)
                  true false a) as (E & _).
      rewrite E in Hc. injection Hc as <- _.
      apply Forall2_map_self. intros sh Hn.
      destruct (findIndex _ _) as [idx|] eqn:F; [|reflexivity].
      exfalso. apply findIndex_Some in F as (b & Hb & Hid).
      apply nth_error_In in Hb. specialize (Hsorted b Hb).
      apply String.eqb_eq in Hid. unfold isSelected in *.
      rewrite Hid in Hsorted. congruence.
Qed.

(** Three selected rectangles and an unselected circle. *)
Definition threeAndOne : list AnyShape :=
[sampleRect "a" 0 0 10 10; sampleRect "b" 50 0 10 10;
 sampleRect "c" 100 0 10 10; sampleCircle "d" 30 30 5].

Lemma layout_updates_leave_unselected_witness :
  exists a1 u,
    distribute axis_h (loaded threeAndOne [] ["a"; "b"; "c"]%string) = Done a1
    /\ canvasState a1 = ShapesUpdater u true
    /\ map x (u threeAndOne) = [0; 10; 100; 30]
    /\ Forall2
         (fun s t =>
            isSelected (loaded threeAndOne [] ["a"; "b"; "c"]%string) s = false
            -> t = s)
         threeAndOne (u threeAndOne).
Proof.
  do 2 eexists. split; [reflexivity|]. split; [reflexivity|].
  split; [reflexivity|].
  refine (proj2 (proj2 (layout_updates_leave_unselected
                   (loaded threeAndOne [] ["a"; "b"; "c"]%string)
                   mode_left axis_h ArrowUp false 10 threeAndOne))
            threeAndOne _ _ true eq_refl eq_refl eq_refl).
Defined.

(** The axis an alignment mode works along. *)
Definition modeAxis (mode : AlignMode) : Axis :=
match mode with
| mode_left | mode_right | mode_hcenter => axis_h
| mode_top | mode_bottom | mode_vcenter => axis_v
end.

(** The coordinate across [axis]: [y] for the horizontal axis. *)
Definition across (axis : Axis) (s : AnyShape) : Q :=
match axis with axis_h => y s | axis_v => x s end.

(** X12. A layout updater moves shapes along its own axis only: the
    updater of left, right and horizontal-center alignment and of
    horizontal distribution returns every shape with the [y] it had; the
    one of top, bottom and vertical-center alignment and of vertical
    distribution, with the [x] it had. *)
Theorem layout_updates_keep_other_axis (mode : AlignMode) (axis : Axis)
    (sel : list string) (sz : Size.t) (sorted : list Box) (first : Box)
    (gaps : Q) (l : list AnyShape) :
  map (across (modeAxis mode)) (alignUpdate mode sel sz l)
  = map (across (modeAxis mode)) l
  /\ map (across axis) (distributeUpdate axis sorted first gaps l)
     = map (across axis) l.
Proof.
  unfold alignUpdate, distributeUpdate. rewrite !map_map.
  split; apply map_ext; intros sh.
  - destruct (negb _); [reflexivity|]. now destruct mode.
  - destruct (findIndex _ _); [|reflexivity].
    destruct (_ || _); [reflexivity|]. now destruct axis.
Qed.

(** X13. The updater of [alignSelected] is idempotent: the positions it
    gives the selected shapes depend on their sizes and on the stage
    only, so applied to its own result it returns that result. *)
Theorem alignUpdate_idempotent (mode : AlignMode) (sel : list string)
    (sz : Size.t) (l : list AnyShape) :
  alignUpdate mode sel sz (alignUpdate mode sel sz l)
  = alignUpdate mode sel sz l.
Proof.
  unfold alignUpdate. rewrite map_map. apply map_ext. intros sh.
  destruct (negb (includes sel (id sh))) eqn:N.
  - now rewrite N.
  - destruct mode; cbn [id set_x set_y]; rewrite N; reflexivity.
Qed.

(** *** Marquee selection *)

Lemma insideMarquee_spec (r : BBox.t) (s : AnyShape) :
  insideMarquee r s = true <->
  BBox.x r <= BBox.x (getBBox s)
  /\ BBox.y r <= BBox.y (getBBox s)
  /\ BBox.x (getBBox s) + BBox.w (getBBox s) <= BBox.x r + BBox.w r
  /\ BBox.y (getBBox s) + BBox.h (getBBox s) <= BBox.y r + BBox.h r.
Proof.
  unfold insideMarquee. rewrite !andb_true_iff, !Qle_bool_iff. tauto.
Qed.

(** X15. Marquee selection is by containment. With a shape list at hand,
    the ids a marquee selects are exactly those of the shapes whose
    bounding box lies within it: left and top edge not before the
    marquee's, right and bottom edge not beyond them. A marquee that
    contains another selects every id the smaller one selects. The
    history is not touched. *)
Theorem marquee_containment (r1 r2 : BBox.t) (a : State)
    (current : list AnyShape) :
  shapes a = Some current ->
  BBox.x r2 <= BBox.x r1 ->
  BBox.y r2 <= BBox.y r1 ->
  BBox.x r1 + BBox.w r1 <= BBox.x r2 + BBox.w r2 ->
  BBox.y r1 + BBox.h r1 <= BBox.y r2 + BBox.h r2 ->
  exists a1 a2,
    marqueeSelect r1 a = Done a1 /\ marqueeSelect r2 a = Done a2
    /\ (forall i, In i (selectedIds a1) <->
          exists s, In s current /\ id s = i
            /\ BBox.x r1 <= BBox.x (getBBox s)
            /\ BBox.y r1 <= BBox.y (getBBox s)
            /\ BBox.x (getBBox s) + BBox.w (getBBox s)
               <= BBox.x r1 + BBox.w r1
            /\ BBox.y (getBBox s) + BBox.h (getBBox s)
               <= BBox.y r1 + BBox.h r1)
    /\ incl (selectedIds a1) (selectedIds a2)
    /\ history a1 = history a.
Proof.
  intros Hs Hx Hy Hw Hh. unfold marqueeSelect. rewrite Hs.
  do 2 eexists. split; [reflexivity|]. split; [reflexivity|].
  cbn [setSelectedIds selectedIds history].
  split; [|split; [|reflexivity]].
  - intros i. rewrite in_map_iff. split.
    + intros (s & <- & Hin). apply filter_In in Hin as [Hin Hin'].
      apply insideMarquee_spec in Hin'. exists s. tauto.
    + intros (s & Hin & <- & H). exists s. split; [reflexivity|].
      apply filter_In. split; [exact Hin|]. now apply insideMarquee_spec.
  - intros i Hi. apply in_map_iff in Hi as (s & <- & Hin).
    apply filter_In in Hin as [Hin Hin']. apply in_map, filter_In.
    split; [exact Hin|].
    apply insideMarquee_spec in Hin'. apply insideMarquee_spec.
    destruct Hin' as (H1 & H2 & H3 & H4).
    repeat split; eapply Qle_trans; eassumption.
Qed.

(** Marquees around a 50 by 50 rectangle at the origin: one of 40 by 40
    does not contain it; those of 60 by 60 and 100 by 100 do. *)
Lemma marquee_containment_witness :
  shapes (loaded [sampleRect "r" 0 0 50 50] [] [])
  = Some [sampleRect "r" 0 0 50 50]
  /\ BBox.x (BBox.mk 0 0 100 100) <= BBox.x (BBox.mk 0 0 60 60)
  /\ marqueeSelect (BBox.mk 0 0 40 40) (loaded [sampleRect "r" 0 0 50 50] [] [])
     = Done (loaded [sampleRect "r" 0 0 50 50] [] [])
  /\ marqueeSelect (BBox.mk 0 0 60 60) (loaded [sampleRect "r" 0 0 50 50] [] [])
     = Done (loaded [sampleRect "r" 0 0 50 50] [] ["r"%string])
  /\ exists a1 a2,
       marqueeSelect (BBox.mk 0 0 60 60)
         (loaded [sampleRect "r" 0 0 50 50] [] []) = Done a1
       /\ marqueeSelect (BBox.mk 0 0 100 100)
            (loaded [sampleRect "r" 0 0 50 50] [] []) = Done a2
       /\ selectedIds a1 = ["r"%string]
       /\ incl (selectedIds a1) (selectedIds a2).
Proof.
  split; [reflexivity|]. split; [discriminate|].
  split; [reflexivity|]. split; [reflexivity|].
  destruct (marquee_containment (BBox.mk 0 0 60 60) (BBox.mk 0 0 100 100)
              (loaded [sampleRect "r" 0 0 50 50] [] [])
              [sampleRect "r" 0 0 50 50] eq_refl)
    as (a1 & a2 & E1 & E2 & _ & Hincl & _); try discriminate.
  exists a1, a2. split; [exact E1|]. split; [exact E2|].
  split; [|exact Hincl].
  vm_compute in E1. injection E1 as <-. reflexivity.
Defined.

(** *** Duplicating *)

(** [c] is [orig] under a generated id, moved by (20, 20). *)
Definition isCopyOf (uuid : nat -> string) (orig c : AnyShape) : Prop :=
(exists k, id c = uuid k)
/\ x c = orElse (Some (x orig)) 0 + 20
/\ y c = orElse (Some (y orig)) 0 + 20
/\ rotation c = rotation orig /\ fill c = fill orig
/\ stroke c = stroke orig /\ strokeWidth c = strokeWidth orig
/\ draggable c = draggable orig
/\ opacity c = opacity orig /\ name c = name orig
/\ groupId c = groupId orig /\ payload c = payload orig.

Lemma copyOf_isCopyOf (uuid : nat -> string) (k : nat) (orig : AnyShape) :
  isCopyOf uuid orig (copyOf (uuid k) orig).
Proof.
  unfold isCopyOf, copyOf;
    cbn [id x y rotation fill stroke strokeWidth draggable opacity name
         groupId payload].
  split; [now exists k|]. repeat split.
Qed.

Lemma copies_spec (uuid : nat -> string) (base : list AnyShape)
    (sel : list string) (ids : list string) :
  incl ids sel ->
  forall acc,
    Forall (fun c => exists orig, In orig base /\ In (id orig) sel
                                  /\ isCopyOf uuid orig c) acc ->
    Forall (fun c => exists orig, In orig base /\ In (id orig) sel
                                  /\ isCopyOf uuid orig c)
      (fold_left (copyStep uuid base) ids acc)
    /\ (List.length (fold_left (copyStep uuid base) ids acc)
        <= List.length acc + List.length ids)%nat.
Proof.
  induction ids as [|i ids IH]; intros Hincl acc Hacc; simpl.
  - split; [exact Hacc|lia].
  - assert (Hi : In i sel) by (apply Hincl; now left).
    assert (Hincl' : incl ids sel) by (intros j Hj; apply Hincl; now right).
    assert (Hstep : Forall (fun c => exists orig, In orig base
                              /\ In (id orig) sel /\ isCopyOf uuid orig c)
                      (copyStep uuid base acc i)
                    /\ (List.length (copyStep uuid base acc i)
                        <= S (List.length acc))%nat).
    { unfold copyStep.
      destruct (findIndex _ base) as [idx|] eqn:F; [|split; [exact Hacc|lia]].
      destruct (findIndex_Some _ _ _ F) as (orig & Hn & Hid).
      rewrite Hn. split.
      - apply Forall_app. split; [exact Hacc|].
        constructor; [|constructor]. exists orig.
        apply String.eqb_eq in Hid. rewrite Hid.
        split; [now apply nth_error_In in Hn|].
        split; [exact Hi|apply copyOf_isCopyOf].
      - rewrite length_app; simpl; lia. }
    destruct Hstep as [Hf Hl].
    destruct (IH Hincl' _ Hf) as [Hf' Hl']. split; [exact Hf'|lia].
Qed.

(** X18. The updater of the Ctrl/Cmd+D branch only appends: the shape
    list it is given comes back as the front of the result, unchanged;
    what follows are copies of selected shapes of that list, each with a
    generated id, [x] and [y] raised by 20 and every other field, the
    [groupId] included, as in its original; and there are at most as many
    copies as selected ids. With a non-empty selection the handler stores
    that updater as the present document and leaves the selection as it
    is. *)
Theorem duplicate_update_appends (uuid : nat -> string) (a : State)
    (l : list AnyShape) :
  selectedIds a <> [] ->
  (exists copies,
     duplicateUpdate uuid (selectedIds a) l = l ++ copies
     /\ (List.length copies <= List.length (selectedIds a))%nat
     /\ Forall (fun c => exists orig,
                  In orig l /\ isSelected a orig = true
                  /\ isCopyOf uuid orig c) copies)
  /\ canvasState (duplicateSelected uuid a)
     = ShapesUpdater (duplicateUpdate uuid (selectedIds a)) true
  /\ selectedIds (duplicateSelected uuid a) = selectedIds a.
Proof.
  intros Hsel. split; [|split].
  - unfold duplicateUpdate. eexists. split; [reflexivity|].
    destruct (copies_spec uuid l (selectedIds a) (selectedIds a)
                (incl_refl _) [] (Forall_nil _)) as [Hf Hl].
    split; [exact Hl|].
    eapply Forall_impl; [|exact Hf]. cbv beta.
    intros c (orig & Hin & Hs & Hc). exists orig.
    split; [exact Hin|]. split; [|exact Hc].
    unfold isSelected. now apply includes_In.
  - unfold duplicateSelected.
    destruct (selectedIds a) as [|i sel] eqn:E; [contradiction|].
    rewrite <- E. apply setShapes_reads.
  - unfold duplicateSelected.
    destruct (selectedIds a) as [|i sel] eqn:E; [contradiction|].
    rewrite <- E. apply setShapes_reads.
Qed.

Lemma duplicate_update_appends_witness :
  selectedIds (loaded flatShapes [] ["b"%string]) <> []
  /\ map id (duplicateUpdate (fun _ => "n0"%string) ["b"%string] flatShapes)
     = ["a"; "b"; "n0"]%string
  /\ exists copies,
       duplicateUpdate (fun _ => "n0"%string) ["b"%string] flatShapes
       = flatShapes ++ copies.
Proof.
  assert (H : selectedIds (loaded flatShapes [] ["b"%string]) <> [])
    by discriminate.
  split; [exact H|]. split; [reflexivity|].
  destruct (proj1 (duplicate_update_appends (fun _ => "n0"%string)
                     (loaded flatShapes [] ["b"%string]) flatShapes H))
    as (copies & E & _).
  exists copies. exact E.
Defined.

(** *** Routes are shortest orthogonal paths *)

(** The length of a polyline, each segment measured along the axes. *)
Fixpoint pathLength (pts : list (Q * Q)) : Q :=
match pts with
| p :: (q :: _) as rest =>
    Qabs (fst q - fst p) + Qabs (snd q - snd p) + pathLength rest
| _ => 0
end.

Lemma Qabs_self (a : Q) : Qabs (a - a) == 0.
Proof.
  assert (E : a - a == 0) by ring. now rewrite E.
Qed.

(** X16. A route is an elbow of three points from the center of the first
    shape to the center of the second, each of its two segments is
    horizontal or vertical, and it makes no detour: its length is the
    horizontal plus the vertical distance between the two centers. *)
Theorem route_is_shortest_elbow (from to : AnyShape) :
  exists vx vy,
    toPoints (routeConnector from to)
    = [(centerX from, centerY from); (vx, vy); (centerX to, centerY to)]
    /\ ((vy = centerY from /\ vx = centerX to)
        \/ (vx = centerX from /\ vy = centerY to))
    /\ pathLength (toPoints (routeConnector from to))
       == Qabs (centerX to - centerX from) + Qabs (centerY to - centerY from).
Proof.
  unfold routeConnector.
  destruct (horizontalFirst from to); do 2 eexists;
    (split; [reflexivity|]); (split; [auto|]); cbn [toPoints pathLength fst snd];
    rewrite !Qabs_self; ring.
Qed.

End Editing.

(** ** Laws of the SVG export *)

Module ExportLaws.
Import Scene SvgExport.
Local Open Scope string_scope.

(** The character [c] occurs in [s]. *)
Fixpoint hasChar (c : ascii) (s : string) : bool :=
match s with
| EmptyString => false
| String d s' => Ascii.eqb d c || hasChar c s'
end.

Lemma hasChar_app (c : ascii) (s t : string) :
  hasChar c (s ++ t) = hasChar c s || hasChar c t.
Proof.
  induction s as [|d s IH]; simpl; [reflexivity|].
  now rewrite IH, orb_assoc.
Qed.

Lemma replaceAll_removes (c : ascii) (r s : string) :
  hasChar c r = false -> hasChar c (replaceAll c r s) = false.
Proof.
  intros Hr. induction s as [|d s IH]; simpl; [reflexivity|].
  destruct (Ascii.eqb d c) eqn:E.
  - now rewrite hasChar_app, Hr, IH.
  - simpl. now rewrite E, IH.
Qed.

Lemma replaceAll_keeps_out (c d : ascii) (r s : string) :
  hasChar d r = false -> hasChar d s = false ->
  hasChar d (replaceAll c r s) = false.
Proof.
  intros Hr. induction s as [|e s IH]; simpl; [reflexivity|].
  intros H. apply orb_false_iff in H as [He Hs].
  destruct (Ascii.eqb e c).
  - now rewrite hasChar_app, Hr, IH.
  - simpl. now rewrite He, IH.
Qed.

Lemma replaceAll_plain (c : ascii) (r s : string) :
  hasChar c s = false -> replaceAll c r s = s.
Proof.
  induction s as [|d s IH]; simpl; [reflexivity|].
  intros H. apply orb_false_iff in H as [Hd Hs]. now rewrite Hd, IH.
Qed.

Lemma replaceAll_empty (c : ascii) (r s : string) :
  r <> "" -> replaceAll c r s = "" -> s = "".
Proof.
  intros Hr. destruct s as [|d s]; [reflexivity|]. simpl.
  destruct (Ascii.eqb d c); [|discriminate].
  destruct r; [contradiction|discriminate].
Qed.

(** X19. The output of [escapeXML] holds no [<], no [>], no double quote
    and no apostrophe, whatever the input; and a text without any of the
    five special characters comes out as it went in. *)
Theorem escapeXML_safe (str : string) :
  hasChar "<" (escapeXML str) = false
  /\ hasChar ">" (escapeXML str) = false
  /\ hasChar dquote (escapeXML str) = false
  /\ hasChar "'" (escapeXML str) = false
  /\ (hasChar "&" str = false -> hasChar "<" str = false ->
      hasChar ">" str = false -> hasChar dquote str = false ->
      hasChar "'" str = false -> escapeXML str = str).
Proof.
  unfold escapeXML. repeat split.
  - do 3 (apply replaceAll_keeps_out; [reflexivity|]).
    now apply replaceAll_removes.
  - do 2 (apply replaceAll_keeps_out; [reflexivity|]).
    now apply replaceAll_removes.
  - apply replaceAll_keeps_out; [reflexivity|].
    now apply replaceAll_removes.
  - now apply replaceAll_removes.
  - intros Ha Hl Hg Hq Hp.
    now rewrite (replaceAll_plain "&"), (replaceAll_plain "<"),
      (replaceAll_plain ">"), (replaceAll_plain dquote),
      (replaceAll_plain "'").
Qed.

Lemma escapeXML_empty (str : string) : escapeXML str = "" -> str = "".
Proof.
  unfold escapeXML. intros H.
  do 5 (apply replaceAll_empty in H; [|discriminate]). exact H.
Qed.

Lemma sanitizeURL_cases (url : string) :
  sanitizeURL url
  = if String.eqb url "" || denylisted url then "" else escapeXML url.
Proof.
  unfold sanitizeURL, denylisted, denylist; cbn [existsb].
  destruct (String.eqb url ""); [reflexivity|]. cbn [orb].
  now rewrite orb_false_r, orb_assoc.
Qed.

(** X20. [sanitizeURL] answers the empty string exactly for the empty URL
    and for a URL on the scheme denylist; any other URL comes back
    escaped, so the answer never holds a double quote or an angle bracket
    and cannot end the attribute it is written into. *)
Theorem sanitizeURL_spec (url : string) :
  (sanitizeURL url = "" <-> url = "" \/ denylisted url = true)
  /\ (sanitizeURL url <> "" -> sanitizeURL url = escapeXML url)
  /\ hasChar dquote (sanitizeURL url) = false
  /\ hasChar "<" (sanitizeURL url) = false
  /\ hasChar ">" (sanitizeURL url) = false.
Proof.
  rewrite sanitizeURL_cases.
  destruct (String.eqb_spec url "") as [E|E]; cbn [orb].
  - repeat split; auto. intros H; now elim H.
  - destruct (denylisted url) eqn:D.
    + repeat split; auto. intros H; now elim H.
    + repeat split; try apply escapeXML_safe.
      * intros H. apply escapeXML_empty in H. now left.
      * intros [H|H]; [contradiction|discriminate].
Qed.

Section Content.
Variable formatNumber : Q -> string.
Variable normalizeColor : option string -> string.

(** The shape is marked as the member of a group. *)
Definition grouped (s : AnyShape) : bool :=
match truthyStr (groupId s) with Some _ => true | None => false end.

(** The shape is an image whose URL [sanitizeURL] empties. *)
Definition blockedImage (s : AnyShape) : bool :=
match payload s with
| ImageShape src _ _ => String.eqb src "" || denylisted src
| _ => false
end.

(** X21. The export writes one line for a shape, or none: none for a
    shape marked as a group member and for an image with an empty or
    denylisted URL, exactly one for every other shape. *)
Theorem emitShape_count (s : AnyShape) :
  List.length (emitShape formatNumber normalizeColor s)
  = if grouped s || blockedImage s then 0%nat else 1%nat.
Proof.
  unfold emitShape, grouped, blockedImage.
  destruct (truthyStr (groupId s)); [reflexivity|]. cbn [orb].
  destruct (payload s) as [w h r|r|pts t c|pts pl pw|t fs w a|src w h|ch w h];
    try reflexivity.
  rewrite sanitizeURL_cases.
  destruct (String.eqb src "" || denylisted src) eqn:B; [reflexivity|].
  destruct (String.eqb_spec (escapeXML src) "") as [E|E]; [|reflexivity].
  apply escapeXML_empty in E. subst src. discriminate B.
Qed.

End Content.

End ExportLaws.

(** ** Laws of project loading *)

Module ProjectLaws.
Import History Project.
Local Open Scope string_scope.

Section Load.
Variable parse : string -> JSValue + string.
Variable typeErrorMessage : string.
Variable asShapes : list JSValue -> list Scene.AnyShape.
Variable asConnectors : JSValue -> list Scene.Connector.t.
Variable asString : JSValue -> string.
Variable asSize : JSValue -> Scene.Size.t.
Variable asNumber : JSValue -> Q.

Abbreviation load :=
  (loadJSON parse typeErrorMessage asShapes asConnectors asString asSize
     asNumber).

(** X23. A file that has an array of shapes but whose [__connectors],
    [__bg], [__size] and [__grid] are missing or falsy is loaded with the
    defaults: no connectors, a white background and a 1200 by 800 canvas,
    the grid settings staying as they are. The history is reset, so the
    load cannot be undone; selection and alerts are not touched. *)
Theorem loadJSON_defaults (text : string) (a : App) (parsed : JSValue)
    (items : list JSValue) :
  parse text = inl parsed ->
  prop parsed "__shapes" = Some (JArray items) ->
  truthy (propOf parsed "__connectors") = false ->
  truthy (propOf parsed "__bg") = false ->
  truthy (propOf parsed "__size") = false ->
  truthy (propOf parsed "__grid") = false ->
  load text a
  = mkApp (reset (mkCanvas (asShapes items) (asConnectors (JArray []))))
      (selectedIds a)
      (asString (JString "#ffffff"))
      (asSize (JObject [("width", JNumber 1200); ("height", JNumber 800)]))
      (showGrid a) (gridSize a) (snapEnabled a) (alerts a)
  /\ canUndo (history (load text a)) = false
  /\ canRedo (history (load text a)) = false.
Proof.
  intros Hp Hs Hc Hb Hz Hg.
  assert (E : load text a
    = mkApp (reset (mkCanvas (asShapes items) (asConnectors (JArray []))))
        (selectedIds a)
        (asString (JString "#ffffff"))
        (asSize (JObject [("width", JNumber 1200); ("height", JNumber 800)]))
        (showGrid a) (gridSize a) (snapEnabled a) (alerts a)).
  { unfold loadJSON. rewrite Hp, Hs. cbv zeta. unfold orElse.
    now rewrite Hc, Hb, Hz, Hg. }
  rewrite E. repeat split.
Qed.

End Load.

(** A parser standing for a file that holds an empty array of shapes and
    nothing else. *)
Definition parseBare (_ : string) : JSValue + string :=
inl (JObject [("__shapes", JArray [])]).

Lemma loadJSON_defaults_witness :
  parseBare "bare.json" = inl (JObject [("__shapes", JArray [])])
  /\ canUndo
       (history
          (loadJSON parseBare "TypeError" (fun _ => [])
             (fun _ => []) (fun _ => "#ffffff")
             (fun _ => Scene.Size.mk 1200 800) (fun _ => 20%Q)
             "bare.json" initialApp))
     = false.
Proof.
  split; [reflexivity|].
  refine (proj1 (proj2 (loadJSON_defaults parseBare "TypeError" (fun _ => [])
           (fun _ => []) (fun _ => "#ffffff")
           (fun _ => Scene.Size.mk 1200 800) (fun _ => 20%Q)
           "bare.json" initialApp (JObject [("__shapes", JArray [])]) []
           _ _ _ _ _ _))); reflexivity.
Defined.

End ProjectLaws.
